(** * Worker pool placement and the task step executor of concourse/atc

    A shallow embedding of [worker/pool.go] (package [worker]) and of the
    task step (package [exec]): the compatibility filter with its
    tenant preference, volume-affinity placement, the container-limit
    fallback, and the run / recover / cancel life cycle of a task step
    together with the registration of its outputs. *)

From Stdlib Require Import ZArith String Ascii List Bool Lia.
From Stdlib Require Import Decimal DecimalString DecimalZ DecimalPos DecimalN.
From stdpp Require Import base option list gmap strings.

Import ListNotations.
Local Open Scope string_scope.
Local Open Scope Z_scope.

(** ** Go values shared by both packages *)

(** A Go call returning [(T, error)]: [Ok v] is [(v, nil)], [Err e] is
    [(zero, e)]. *)
Inductive result (E A : Type) : Type :=
| Ok (a : A)
| Err (e : E).
Arguments Ok {E A} a.
Arguments Err {E A} e.

(** Go's [int] on the 64-bit platforms the ATC runs on. *)
Definition min_int : Z := - 2 ^ 63.
Definition max_int : Z := 2 ^ 63 - 1.
Definition is_intb (z : Z) : bool := (min_int <=? z) && (z <=? max_int).

(** [strings.Contains(s, substr)]. *)
Fixpoint Contains (s substr : string) : bool :=
  String.prefix substr s
  || match s with
     | EmptyString => false
     | String _ s' => Contains s' substr
     end.

(** ** [fmt.Sprintf("%d", n)] and [fmt.Sscanf(s, "%d", &n)]

    Both belong to Go's standard library; they are modelled from its
    documentation and from [fmt/scan.go].  [%d] prints a minus sign for
    negative numbers and then the decimal digits without leading zeros. *)
Definition Sprintf_d (n : Z) : string :=
  NilZero.string_of_int (Z.to_int n).

(** [isSpace] of [fmt/scan.go]: the runes that the scanner takes for
    space (U+0009 to U+000D, U+0020, U+0085, U+00A0, U+1680, U+2000 to
    U+200A, U+2028, U+2029, U+202F, U+205F and U+3000). *)
Definition isSpace (r : N) : bool :=
  ((9 <=? r) && (r <=? 13) || (r =? 32) || (r =? 133) || (r =? 160)
   || (r =? 5760) || (8192 <=? r) && (r <=? 8202)
   || (8232 <=? r) && (r <=? 8233) || (r =? 8239) || (r =? 8287)
   || (r =? 12288))%N.

Definition isNewline (a : ascii) : bool :=
  match a with
  | "010"%char => true
  | _ => false
  end.

(** The runes of one, two and three bytes that the scanner reads from a
    string, which Go holds in UTF-8: a byte that starts no valid encoding
    is read as U+FFFD, which is no space, and so is every rune of four
    bytes.  Overlong encodings and surrogates are not valid. *)
Definition continuation (a : ascii) : option N :=
  let y := N_of_ascii a in
  if ((128 <=? y) && (y <=? 191))%N then Some (y - 128)%N else None.

Definition rune1 (a : ascii) : option N :=
  let x := N_of_ascii a in
  if (x <? 128)%N then Some x else None.

Definition rune2 (a b : ascii) : option N :=
  let x := N_of_ascii a in
  if ((194 <=? x) && (x <=? 223))%N
  then match continuation b with
       | Some y => Some ((x - 192) * 64 + y)%N
       | None => None
       end
  else None.

Definition rune3 (a b c : ascii) : option N :=
  let x := N_of_ascii a in
  if ((224 <=? x) && (x <=? 239))%N
  then match continuation b, continuation c with
       | Some y, Some z =>
           let r := ((x - 224) * 4096 + y * 64 + z)%N in
           if ((r <? 2048) || (55296 <=? r) && (r <=? 57343))%N
           then None else Some r
       | _, _ => None
       end
  else None.

Definition spaceRune (r : option N) : bool :=
  match r with
  | Some r => isSpace r
  | None => false
  end.

(** [SkipSpace] of the scanner of [Sscanf]: spaces are skipped, a newline
    is an error (also after a carriage return). *)
Fixpoint SkipSpace (s : string) : result string string :=
  match s with
  | EmptyString => Ok EmptyString
  | String a s1 =>
      if isNewline a then Err "unexpected newline"
      else if spaceRune (rune1 a) then SkipSpace s1
      else
        match s1 with
        | EmptyString => Ok s
        | String b s2 =>
            if spaceRune (rune2 a b) then SkipSpace s2
            else
              match s2 with
              | EmptyString => Ok s
              | String c s3 =>
                  if spaceRune (rune3 a b c) then SkipSpace s3 else Ok s
              end
        end
  end.

(** The longest prefix of decimal digits, as a decimal numeral, and the
    rest of the input. *)
Fixpoint scanNumber (s : string) : uint * string :=
  match s with
  | EmptyString => (Nil, EmptyString)
  | String a s' =>
      let '(d, rest) := scanNumber s' in
      match uint_of_char a (Some Nil) with
      | Some _ =>
          match uint_of_char a (Some d) with
          | Some d' => (d', rest)
          | None => (Nil, s)
          end
      | None => (Nil, s)
      end
  end.

(** [strconv.Quote] of a token, which holds a sign and digits only. *)
Definition Quote (tok : string) : string :=
  String "034" (tok +:+ String "034" EmptyString).

(** [strconv.ParseInt(tok, 10, 64)] on a token made of an optional sign
    and a run of at least one digit; the only error left is the range
    error, whose message quotes the token. *)
Definition ParseInt (sign : string) (digits : uint) : result string Z :=
  let v := if String.eqb sign "-" then - Z.of_uint digits else Z.of_uint digits in
  if is_intb v then Ok v
  else Err ("strconv.ParseInt: parsing "
            +:+ Quote (sign +:+ NilEmpty.string_of_uint digits)
            +:+ ": value out of range").

(** [scanInt] for the verb [%d] after the spaces: the input must not be
    at its end ([io.EOF]); one sign is accepted; the input must not end
    after the sign; then at least one digit is expected. *)
Definition scanInt (t : string) : result string Z :=
  match t with
  | EmptyString => Err "EOF"
  | String a s' =>
      let '(sign, rest) :=
        match a with
        | "-"%char | "+"%char => (String a EmptyString, s')
        | _ => (EmptyString, t)
        end in
      match rest with
      | EmptyString => Err "EOF"
      | _ =>
          match fst (scanNumber rest) with
          | Nil => Err "expected integer"
          | digits => ParseInt sign digits
          end
      end
  end.

(** [Sscanf(s, "%d", &n)]: skip spaces, accept one sign, read the digits;
    whatever follows the number is left unread.  On an error nothing is
    stored in [n]. *)
Definition Sscanf_d (s : string) : result string Z :=
  match SkipSpace s with
  | Err e => Err e
  | Ok t => scanInt t
  end.

Example Sprintf_d_0 : Sprintf_d 0 = "0".
Proof. reflexivity. Qed.

Example Sprintf_d_neg : Sprintf_d (-17) = "-17".
Proof. reflexivity. Qed.

Example Sscanf_d_blank : Sscanf_d "  42 rest" = Ok 42.
Proof. reflexivity. Qed.

Example Sscanf_d_junk : Sscanf_d "abc" = Err "expected integer".
Proof. reflexivity. Qed.

(** U+00A0 (bytes [C2 A0]) and U+3000 (bytes [E3 80 80]) are spaces. *)
Example Sscanf_d_unicode_space :
  Sscanf_d (String "194" (String "160" (String "227" (String "128"
             (String "128" "5"))))) = Ok 5.
Proof. reflexivity. Qed.

(** A lone byte [A0] is no rune, hence no space. *)
Example Sscanf_d_lone_byte :
  Sscanf_d (String "160" "5") = Err "expected integer".
Proof. reflexivity. Qed.

Example Sscanf_d_empty : Sscanf_d "" = Err "EOF".
Proof. reflexivity. Qed.

Example Sscanf_d_sign_only : Sscanf_d " -" = Err "EOF".
Proof. reflexivity. Qed.

Example Sscanf_d_newline :
  Sscanf_d (String "013" (String "010" "5")) = Err "unexpected newline".
Proof. reflexivity. Qed.

Example Sscanf_d_range :
  Sscanf_d "-9223372036854775809" =
  Err ("strconv.ParseInt: parsing "
       +:+ Quote "-9223372036854775809" +:+ ": value out of range").
Proof. reflexivity. Qed.

(** *** Printing then scanning gives the number back *)









(** * Package [worker]: the pool ([worker/pool.go]) *)

Module worker.

(** [WorkerSpec]: what a container needs of a worker. *)
Record WorkerSpec := {
  Platform : string;
  ResourceType : string;
  Tags : list string;
  TeamID : Z
}.

(** [atc.VersionedResourceTypes] is only handed on to the workers. *)
Definition VersionedResourceTypes := list string.

Section Pool.

(** [Worker] and [Container] are interfaces; a worker is known to the pool
    by its identity and its methods.  [InputSource] stands for the
    elements of [spec.Inputs]. *)
Context {Worker Container InputSource : Type}.

Inductive error :=
| ErrNoWorkers
| ErrMissingWorker
| NoCompatibleWorkersError (Spec : WorkerSpec) (Workers : list Worker)
| ErrorString (msg : string).

(** [ContainerSpec], with the result of its [WorkerSpec()] method. *)
Record ContainerSpec := {
  spec_WorkerSpec : WorkerSpec;
  spec_TeamID : Z;
  Inputs : list InputSource
}.

(** The methods of [Worker], of [WorkerSpec] and of an input's
    [ArtifactSource] that the pool calls. *)
Class WorkerMethods := {
  Satisfying : Worker -> WorkerSpec -> VersionedResourceTypes -> result error Worker;
  IsOwnedByTeam : Worker -> bool;
  Description : Worker -> string;
  SpecDescription : WorkerSpec -> string;
  WorkerFindOrCreateBuildContainer :
    Worker -> Z -> string -> ContainerSpec -> VersionedResourceTypes ->
    result error Container;
  VolumeOn : InputSource -> Worker -> result error bool
}.

(** [WorkerProvider]. *)
Record WorkerProvider := {
  RunningWorkers : result error (list Worker);
  FindWorkerForBuildContainer : Z -> Z -> string -> result error (option Worker)
}.

Context `{WorkerMethods}.

(** [err.Error()]. *)
Definition Error (err : error) : string :=
  match err with
  | ErrNoWorkers => "no workers"
  | ErrMissingWorker => "worker for container is missing"
  | NoCompatibleWorkersError spec workers =>
      "no workers satisfying: " +:+ SpecDescription spec +:+
      String "010" (String "010" "available workers: ") +:+
      fold_left (fun acc w => acc +:+ String "010" "  - " +:+ Description w)
                workers EmptyString
  | ErrorString msg => msg
  end.

(** The loop of [AllSatisfying] (lines 95-106), with its two slices. *)
Fixpoint satisfyingLoop (workers : list Worker) (spec : WorkerSpec)
    (resourceTypes : VersionedResourceTypes)
    (compatibleTeamWorkers compatibleGeneralWorkers : list Worker)
  : list Worker * list Worker :=
  match workers with
  | [] => (compatibleTeamWorkers, compatibleGeneralWorkers)
  | worker :: rest =>
      match Satisfying worker spec resourceTypes with
      | Ok satisfyingWorker =>
          if IsOwnedByTeam worker
          then satisfyingLoop rest spec resourceTypes
                 (compatibleTeamWorkers ++ [satisfyingWorker])
                 compatibleGeneralWorkers
          else satisfyingLoop rest spec resourceTypes
                 compatibleTeamWorkers
                 (compatibleGeneralWorkers ++ [satisfyingWorker])
      | Err _ =>
          satisfyingLoop rest spec resourceTypes
            compatibleTeamWorkers compatibleGeneralWorkers
      end
  end.

Definition AllSatisfying (provider : WorkerProvider) (spec : WorkerSpec)
    (resourceTypes : VersionedResourceTypes) : result error (list Worker) :=
  match RunningWorkers provider with
  | Err err => Err err
  | Ok workers =>
      if (length workers =? 0)%nat then Err ErrNoWorkers
      else
        let '(compatibleTeamWorkers, compatibleGeneralWorkers) :=
          satisfyingLoop workers spec resourceTypes [] [] in
        if negb (length compatibleTeamWorkers =? 0)%nat
        then Ok compatibleTeamWorkers
        else if negb (length compatibleGeneralWorkers =? 0)%nat
        then Ok compatibleGeneralWorkers
        else Err (NoCompatibleWorkersError spec workers)
  end.

(** [findWorkerNotRunningVTXTask] (lines 200-235).  Besides the result it
    returns the workers on which creation was attempted, in order. *)
Fixpoint findWorkerNotRunningVTXTask (workers : list Worker)
    (buildID : Z) (planID : string) (spec : ContainerSpec)
    (resourceTypes : VersionedResourceTypes)
  : list Worker * result error Container :=
  match workers with
  | [] =>
      ([], Err (ErrorString "failed to create container on all compatible workers"))
  | worker :: rest =>
      match WorkerFindOrCreateBuildContainer worker buildID planID spec resourceTypes with
      | Err err =>
          if Contains (Error err)
               "worker already has the maximum number of active containers"
          then
            let '(attempted, res) :=
              findWorkerNotRunningVTXTask rest buildID planID spec resourceTypes in
            (worker :: attempted, res)
          else ([worker], Err err)
      | Ok container => ([worker], Ok container)
      end
  end.

(** The inner loop of lines 175-184: how many of [spec.Inputs] have a
    volume on [w]. *)
Fixpoint countInputs (inputs : list InputSource) (w : Worker)
    (candidateInputCount : nat) : result error nat :=
  match inputs with
  | [] => Ok candidateInputCount
  | inputSource :: rest =>
      match VolumeOn inputSource w with
      | Err err => Err err
      | Ok found =>
          countInputs rest w
            (if found then S candidateInputCount else candidateInputCount)
      end
  end.

(** The outer loop of lines 172-191. *)
Fixpoint countLoop (compatibleWorkers : list Worker) (inputs : list InputSource)
    (workersByCount : gmap nat (list Worker)) (highestCount : nat)
  : result error (gmap nat (list Worker) * nat) :=
  match compatibleWorkers with
  | [] => Ok (workersByCount, highestCount)
  | w :: rest =>
      match countInputs inputs w 0 with
      | Err err => Err err
      | Ok candidateInputCount =>
          countLoop rest inputs
            (<[candidateInputCount :=
                 (default [] (workersByCount !! candidateInputCount) ++ [w])%list]>
               workersByCount)
            (if (highestCount <=? candidateInputCount)%nat
             then candidateInputCount else highestCount)
      end
  end.

(** [FindOrCreateBuildContainer] (lines 131-197). *)
Definition FindOrCreateBuildContainer (provider : WorkerProvider)
    (buildID : Z) (planID : string) (spec : ContainerSpec)
    (resourceTypes : VersionedResourceTypes)
  : list Worker * result error Container :=
  match FindWorkerForBuildContainer provider (spec_TeamID spec) buildID planID with
  | Err err => ([], Err err)
  | Ok (Some worker) =>
      ([worker],
       WorkerFindOrCreateBuildContainer worker buildID planID spec resourceTypes)
  | Ok None =>
      match AllSatisfying provider (spec_WorkerSpec spec) resourceTypes with
      | Err err => ([], Err err)
      | Ok compatibleWorkers =>
          match countLoop compatibleWorkers (Inputs spec) ∅ 0 with
          | Err err => ([], Err err)
          | Ok (workersByCount, highestCount) =>
              let workers := default [] (workersByCount !! highestCount) in
              findWorkerNotRunningVTXTask workers buildID planID spec resourceTypes
          end
      end
  end.

(** ** Properties of the pool *)

(** The satisfying workers of one ownership kind, in pool order: what
    [Satisfying] returned for each worker that satisfies the spec. *)
Definition satisfyingOwned (owned : bool) (workers : list Worker)
    (spec : WorkerSpec) (resourceTypes : VersionedResourceTypes) : list Worker :=
  omap (fun worker =>
          match Satisfying worker spec resourceTypes with
          | Ok satisfyingWorker =>
              if Bool.eqb (IsOwnedByTeam worker) owned
              then Some satisfyingWorker else None
          | Err _ => None
          end) workers.

Lemma satisfyingLoop_spec workers spec resourceTypes team general :
  satisfyingLoop workers spec resourceTypes team general =
  ((team ++ satisfyingOwned true workers spec resourceTypes)%list,
   (general ++ satisfyingOwned false workers spec resourceTypes)%list).
Proof.
  revert team general.
  induction workers as [|w ws IH]; intros team general; simpl.
  - now rewrite !app_nil_r.
  - unfold satisfyingOwned in *. simpl.
    destruct (Satisfying w spec resourceTypes) as [sw|e].
    + destruct (IsOwnedByTeam w); simpl; rewrite IH, <- ?app_assoc; reflexivity.
    + apply IH.
Qed.

(** C3.  The tenant preference rule of [AllSatisfying]: on an empty pool
    it fails with [ErrNoWorkers]; otherwise it returns exactly the
    satisfying team-owned workers when there are any, else exactly the
    satisfying general workers when there are any, else it fails with
    [NoCompatibleWorkersError] carrying the spec and all the workers. *)
Theorem AllSatisfying_tenant_preference (provider : WorkerProvider)
    (spec : WorkerSpec) (resourceTypes : VersionedResourceTypes)
    (workers : list Worker) :
  RunningWorkers provider = Ok workers ->
  let team := satisfyingOwned true workers spec resourceTypes in
  let general := satisfyingOwned false workers spec resourceTypes in
  (workers = [] ->
   AllSatisfying provider spec resourceTypes = Err ErrNoWorkers) /\
  (workers <> [] -> team <> [] ->
   AllSatisfying provider spec resourceTypes = Ok team) /\
  (workers <> [] -> team = [] -> general <> [] ->
   AllSatisfying provider spec resourceTypes = Ok general) /\
  (workers <> [] -> team = [] -> general = [] ->
   AllSatisfying provider spec resourceTypes =
   Err (NoCompatibleWorkersError spec workers)).
Proof.
  intros Hrun team general. unfold AllSatisfying. rewrite Hrun.
  rewrite satisfyingLoop_spec. simpl app. fold team general.
  repeat split.
  - intros ->. reflexivity.
  - intros Hw Ht. destruct workers; [congruence|]. simpl.
    destruct team; [congruence|]. reflexivity.
  - intros Hw Ht Hg. destruct workers; [congruence|]. simpl.
    rewrite Ht. simpl. destruct general; [congruence|]. reflexivity.
  - intros Hw Ht Hg. destruct workers; [congruence|]. simpl.
    rewrite Ht, Hg. reflexivity.
Qed.

Definition maxContainersMessage : string :=
  "worker already has the maximum number of active containers".

(** Creation on [w] fails with an error whose message mentions the
    container limit. *)
Definition limitReached (buildID : Z) (planID : string) (spec : ContainerSpec)
    (resourceTypes : VersionedResourceTypes) (w : Worker) : Prop :=
  exists err,
    WorkerFindOrCreateBuildContainer w buildID planID spec resourceTypes = Err err
    /\ Contains (Error err) maxContainersMessage = true.

Lemma findWorker_skips skipped rest buildID planID spec resourceTypes :
  Forall (limitReached buildID planID spec resourceTypes) skipped ->
  findWorkerNotRunningVTXTask (skipped ++ rest) buildID planID spec resourceTypes =
  ((skipped ++ fst (findWorkerNotRunningVTXTask rest buildID planID spec resourceTypes))%list,
   snd (findWorkerNotRunningVTXTask rest buildID planID spec resourceTypes)).
Proof.
  induction 1 as [|w ws (err & Hw & Hc) _ IH]; simpl.
  - now destruct (findWorkerNotRunningVTXTask rest _ _ _ _).
  - rewrite Hw. unfold maxContainersMessage in Hc. rewrite Hc, IH. reflexivity.
Qed.

(** C4.  The fallback policy of [findWorkerNotRunningVTXTask]: creation is
    attempted on the candidates in order; workers that report the
    container limit are skipped; the first worker that succeeds ends the
    search with its container; the first other error ends it with that
    error; when every candidate was skipped the call fails with "failed
    to create container on all compatible workers". *)
Theorem findWorker_fallback_policy (skipped : list Worker) (buildID : Z)
    (planID : string) (spec : ContainerSpec)
    (resourceTypes : VersionedResourceTypes) :
  Forall (limitReached buildID planID spec resourceTypes) skipped ->
  findWorkerNotRunningVTXTask skipped buildID planID spec resourceTypes =
    (skipped,
     Err (ErrorString "failed to create container on all compatible workers"))
  /\ (forall w rest c,
        WorkerFindOrCreateBuildContainer w buildID planID spec resourceTypes = Ok c ->
        findWorkerNotRunningVTXTask (skipped ++ w :: rest) buildID planID spec
          resourceTypes = ((skipped ++ [w])%list, Ok c))
  /\ (forall w rest err,
        WorkerFindOrCreateBuildContainer w buildID planID spec resourceTypes = Err err ->
        Contains (Error err) maxContainersMessage = false ->
        findWorkerNotRunningVTXTask (skipped ++ w :: rest) buildID planID spec
          resourceTypes = ((skipped ++ [w])%list, Err err)).
Proof.
  intros Hskip. repeat split.
  - pose proof (findWorker_skips skipped [] buildID planID spec resourceTypes Hskip) as E.
    rewrite !app_nil_r in E. exact E.
  - intros w rest c Hw.
    rewrite (findWorker_skips skipped (w :: rest)) by assumption.
    simpl. rewrite Hw. reflexivity.
  - intros w rest err Hw Hc.
    rewrite (findWorker_skips skipped (w :: rest)) by assumption.
    simpl. rewrite Hw. unfold maxContainersMessage in Hc. rewrite Hc. reflexivity.
Qed.

(** ** More of the pool *)

(** [pool.Satisfying] (lines 122-129): one element of [AllSatisfying],
    at the index that [pool.rand.Intn(len(compatibleWorkers))] returns.
    [rand.Intn] panics on [0], and so does an index out of range. *)
Definition poolSatisfying (Intn : nat -> nat) (provider : WorkerProvider)
    (spec : WorkerSpec) (resourceTypes : VersionedResourceTypes)
  : result error Worker :=
  match AllSatisfying provider spec resourceTypes with
  | Err err => Err err
  | Ok compatibleWorkers =>
      if (length compatibleWorkers =? 0)%nat
      then Err (ErrorString "invalid argument to Intn")
      else
        match compatibleWorkers !! Intn (length compatibleWorkers) with
        | Some randomWorker => Ok randomWorker
        | None => Err (ErrorString "index out of range")
        end
  end.

(** The number of [spec.Inputs] with a volume on [w] is [n]. *)
Definition countIs (inputs : list InputSource) (n : nat) (w : Worker) : bool :=
  match countInputs inputs w 0 with
  | Ok candidateInputCount => (candidateInputCount =? n)%nat
  | Err _ => false
  end.

Lemma AllSatisfying_Ok_nonempty provider spec resourceTypes ws :
  AllSatisfying provider spec resourceTypes = Ok ws -> ws <> [].
Proof.
  unfold AllSatisfying.
  destruct (RunningWorkers provider) as [workers|e]; [|discriminate].
  destruct (length workers =? 0)%nat; [discriminate|].
  destruct (satisfyingLoop workers spec resourceTypes [] []) as [team general].
  destruct team as [|t team]; simpl.
  - destruct general as [|g general]; simpl; [discriminate|].
    intros [= <-]. discriminate.
  - intros [= <-]. discriminate.
Qed.

(** X2.  [pool.Satisfying] never indexes out of range: when
    [AllSatisfying] succeeds its list is not empty, and with a random
    source that keeps [Intn n] below [n] the worker returned is one of
    that list; an error of [AllSatisfying] is returned as it is. *)
Theorem poolSatisfying_member (Intn : nat -> nat) (provider : WorkerProvider)
    (spec : WorkerSpec) (resourceTypes : VersionedResourceTypes) :
  (forall n, (0 < n)%nat -> (Intn n < n)%nat) ->
  match AllSatisfying provider spec resourceTypes with
  | Err err => poolSatisfying Intn provider spec resourceTypes = Err err
  | Ok compatibleWorkers =>
      compatibleWorkers <> [] /\
      exists randomWorker,
        poolSatisfying Intn provider spec resourceTypes = Ok randomWorker /\
        compatibleWorkers !! Intn (length compatibleWorkers) = Some randomWorker /\
        randomWorker ∈ compatibleWorkers
  end.
Proof.
  intros Hintn. unfold poolSatisfying.
  destruct (AllSatisfying provider spec resourceTypes) as [ws|e] eqn:Hall;
    [|reflexivity].
  pose proof (AllSatisfying_Ok_nonempty _ _ _ _ Hall) as Hne.
  split; [exact Hne|].
  assert (Hlen : (0 < length ws)%nat) by (destruct ws; [congruence | simpl; lia]).
  destruct (lookup_lt_is_Some_2 ws (Intn (length ws)) (Hintn _ Hlen)) as [w Hw].
  exists w. rewrite Hw.
  destruct (length ws =? 0)%nat eqn:E0; [apply Nat.eqb_eq in E0; lia|].
  repeat split. eapply list_elem_of_lookup_2. exact Hw.
Qed.

Lemma countLoop_spec inputs ws :
  forall m h m' h',
    countLoop ws inputs m h = Ok (m', h') ->
    (forall w, w ∈ ws -> exists n, countInputs inputs w 0 = Ok n /\ (n <= h')%nat) /\
    (h <= h')%nat /\
    (h' = h \/ exists w, w ∈ ws /\ countInputs inputs w 0 = Ok h') /\
    (forall k, default [] (m' !! k) =
               (default [] (m !! k) ++ List.filter (countIs inputs k) ws)%list).
Proof.
  induction ws as [|w ws IH]; intros m h m' h' E; simpl in E.
  - injection E as <- <-. repeat split.
    + intros w Hw. inversion Hw.
    + lia.
    + now left.
    + intros k. simpl. now rewrite app_nil_r.
  - destruct (countInputs inputs w 0) as [n|e] eqn:Hn; [|discriminate].
    apply IH in E as (Hall & Hle & Hatt & Hmap).
    assert (Hh : (h <= h' /\ n <= h')%nat).
    { destruct (h <=? n)%nat eqn:Hc;
        [apply Nat.leb_le in Hc | apply Nat.leb_gt in Hc]; lia. }
    repeat split.
    + intros w' Hw'. apply elem_of_cons in Hw' as [-> | Hw']; [|auto].
      exists n. split; [exact Hn | lia].
    + lia.
    + destruct Hatt as [-> | (w' & Hw' & Hc')].
      * destruct (h <=? n)%nat eqn:Hc; [|now left].
        right. exists w. split; [left | exact Hn].
      * right. exists w'. split; [now right | exact Hc'].
    + intros k. rewrite Hmap. simpl. unfold countIs at 2. rewrite Hn.
      destruct (decide (n = k)) as [-> | Hnk].
      * rewrite lookup_insert_eq, Nat.eqb_refl. simpl.
        now rewrite <- app_assoc.
      * rewrite lookup_insert_ne by exact Hnk.
        apply Nat.eqb_neq in Hnk. now rewrite Hnk.
Qed.

(** X1.  Volume-affinity placement of the pool: when no worker hosts the
    container of the build yet and every volume query succeeds,
    [FindOrCreateBuildContainer] tries exactly the compatible workers
    that have the largest number of inputs with a volume on them, in the
    order in which [AllSatisfying] returned them, and there is at least
    one such worker. *)
Theorem FindOrCreateBuildContainer_most_volumes (provider : WorkerProvider)
    (buildID : Z) (planID : string) (spec : ContainerSpec)
    (resourceTypes : VersionedResourceTypes) (compatibleWorkers : list Worker) :
  FindWorkerForBuildContainer provider (spec_TeamID spec) buildID planID = Ok None ->
  AllSatisfying provider (spec_WorkerSpec spec) resourceTypes = Ok compatibleWorkers ->
  (forall w, w ∈ compatibleWorkers ->
     exists n, countInputs (Inputs spec) w 0 = Ok n) ->
  exists highestCount,
    (forall w, w ∈ compatibleWorkers ->
       exists n, countInputs (Inputs spec) w 0 = Ok n /\ (n <= highestCount)%nat) /\
    List.filter (countIs (Inputs spec) highestCount) compatibleWorkers <> [] /\
    FindOrCreateBuildContainer provider buildID planID spec resourceTypes =
    findWorkerNotRunningVTXTask
      (List.filter (countIs (Inputs spec) highestCount) compatibleWorkers)
      buildID planID spec resourceTypes.
Proof.
  intros Hfind Hall Hcounts.
  assert (Hloop : forall ws m h,
            (forall w, w ∈ ws -> exists n, countInputs (Inputs spec) w 0 = Ok n) ->
            exists m' h', countLoop ws (Inputs spec) m h = Ok (m', h')).
  { induction ws as [|w ws IH]; intros m h Hws; simpl; [eauto|].
    destruct (Hws w (list_elem_of_here _ _)) as (n & ->).
    apply IH. intros w' Hw'. apply Hws. now right. }
  destruct (Hloop compatibleWorkers ∅ 0%nat Hcounts) as (m' & h' & Eloop).
  destruct (countLoop_spec _ _ _ _ _ _ Eloop) as (Hmax & _ & Hatt & Hmap).
  exists h'. split; [exact Hmax|].
  assert (Hcand : default [] (m' !! h') =
                  List.filter (countIs (Inputs spec) h') compatibleWorkers).
  { rewrite Hmap. now rewrite lookup_empty. }
  split.
  - pose proof (AllSatisfying_Ok_nonempty _ _ _ _ Hall) as Hne.
    assert (Hex : exists w, w ∈ compatibleWorkers /\
                            countInputs (Inputs spec) w 0 = Ok h').
    { destruct Hatt as [-> | Hex]; [|exact Hex].
      destruct compatibleWorkers as [|w ws]; [congruence|].
      exists w. split; [left|].
      destruct (Hmax w (list_elem_of_here _ _)) as (n & Hn & Hle).
      rewrite Hn. f_equal. lia. }
    destruct Hex as (w & Hw & Hc).
    intros Hnil.
    assert (Hin : In w (List.filter (countIs (Inputs spec) h') compatibleWorkers)).
    { apply List.filter_In. split.
      - now apply list_elem_of_In.
      - unfold countIs. rewrite Hc. apply Nat.eqb_refl. }
    rewrite Hnil in Hin. destruct Hin.
  - unfold FindOrCreateBuildContainer. rewrite Hfind, Hall, Eloop.
    cbv zeta. now rewrite Hcand.
Qed.

(** X3.  Whatever the workers answer, [findWorkerNotRunningVTXTask]
    attempts creation on a prefix of the candidates, in order, each at
    most once; every attempted worker but the last reported the container
    limit; and the result is that of the last attempted worker, unless
    every candidate reported the limit. *)
Theorem findWorker_attempts_prefix (workers : list Worker) (buildID : Z)
    (planID : string) (spec : ContainerSpec)
    (resourceTypes : VersionedResourceTypes) :
  let '(attempted, res) :=
    findWorkerNotRunningVTXTask workers buildID planID spec resourceTypes in
  (exists rest, workers = (attempted ++ rest)%list) /\
  ((attempted = workers /\
    Forall (limitReached buildID planID spec resourceTypes) workers /\
    res = Err (ErrorString "failed to create container on all compatible workers"))
   \/
   (exists skipped w,
      attempted = (skipped ++ [w])%list /\
      Forall (limitReached buildID planID spec resourceTypes) skipped /\
      ~ limitReached buildID planID spec resourceTypes w /\
      res = WorkerFindOrCreateBuildContainer w buildID planID spec resourceTypes)).
Proof.
  induction workers as [|w ws IH]; simpl.
  - split; [now exists []|]. left.
    split; [reflexivity|]. split; [constructor | reflexivity].
  - destruct (WorkerFindOrCreateBuildContainer w buildID planID spec resourceTypes)
      as [c|err] eqn:Hw.
    + split; [now exists ws|]. right. exists [], w.
      split; [reflexivity|]. split; [constructor|]. split; [|now rewrite Hw].
      intros (e & He & _). congruence.
    + destruct (Contains (Error err) _) eqn:Hc.
      * destruct (findWorkerNotRunningVTXTask ws buildID planID spec resourceTypes)
          as [attempted res].
        destruct IH as ((rest & Hrest) & IH).
        assert (Hlim : limitReached buildID planID spec resourceTypes w)
          by (exists err; split; [exact Hw | exact Hc]).
        split; [exists rest; simpl; now f_equal|].
        destruct IH as [(Hatt & Hall & ->) | (skipped & w' & -> & Hall & Hnot & ->)].
        -- left. split; [now f_equal|].
           split; [now constructor | reflexivity].
        -- right. exists (w :: skipped), w'.
           split; [reflexivity|]. split; [now constructor|].
           split; [exact Hnot | reflexivity].
      * split; [now exists ws|]. right. exists [], w.
        split; [reflexivity|]. split; [constructor|]. split; [|now rewrite Hw].
        intros (e & He & Hce). unfold maxContainersMessage in Hce. congruence.
Qed.

(** ** The message of [NoCompatibleWorkersError] *)

Lemma prefix_app_r (sub s t : string) :
  String.prefix sub s = true -> String.prefix sub (s +:+ t) = true.
Proof.
  revert s. induction sub as [|a sub IH]; intros s Hp.
  - destruct (s +:+ t); reflexivity.
  - destruct s as [|b s]; [discriminate|]. simpl in *.
    destruct (ascii_dec a b); [now apply IH | discriminate].
Qed.

Lemma prefix_self_app (s t : string) : String.prefix s (s +:+ t) = true.
Proof.
  induction s as [|a s IH]; [destruct t; reflexivity|]. simpl.
  destruct (ascii_dec a a); [exact IH | congruence].
Qed.

Lemma Contains_cons (a : ascii) (s sub : string) :
  Contains (String a s) sub =
  String.prefix sub (String a s) || Contains s sub.
Proof. reflexivity. Qed.

Lemma Contains_app_l (s t sub : string) :
  Contains s sub = true -> Contains (s +:+ t) sub = true.
Proof.
  induction s as [|a s IH]; intros Hc.
  - destruct sub; [destruct t; reflexivity | discriminate].
  - change (String a s +:+ t) with (String a (s +:+ t)).
    rewrite Contains_cons in *.
    apply orb_true_iff in Hc as [Hp | Hc]; apply orb_true_iff.
    + left. change (String a (s +:+ t)) with (String a s +:+ t).
      now apply prefix_app_r.
    + right. now apply IH.
Qed.

Lemma Contains_app_r (s t sub : string) :
  Contains t sub = true -> Contains (s +:+ t) sub = true.
Proof.
  intros Hc. induction s as [|a s IH]; [exact Hc|].
  change (String a s +:+ t) with (String a (s +:+ t)).
  rewrite Contains_cons. apply orb_true_iff. now right.
Qed.

Lemma Contains_self_app (s t : string) : Contains (s +:+ t) s = true.
Proof.
  destruct s as [|a s].
  - destruct t; reflexivity.
  - change (String a s +:+ t) with (String a (s +:+ t)).
    rewrite Contains_cons. apply orb_true_iff. left.
    change (String a (s +:+ t)) with (String a s +:+ t).
    apply prefix_self_app.
Qed.

Definition workerLine (acc : string) (w : Worker) : string :=
  acc +:+ String "010" "  - " +:+ Description w.

Lemma workerLines_keep workers acc sub :
  Contains acc sub = true ->
  Contains (fold_left workerLine workers acc) sub = true.
Proof.
  revert acc. induction workers as [|w ws IH]; intros acc Hc; [exact Hc|].
  simpl. apply IH. unfold workerLine. now apply Contains_app_l.
Qed.

Lemma workerLines_mention workers acc w :
  w ∈ workers ->
  Contains (fold_left workerLine workers acc) (Description w) = true.
Proof.
  intros Hin. revert acc.
  induction Hin as [w ws | w w' ws _ IH]; intros acc; simpl.
  - apply workerLines_keep. unfold workerLine.
    apply Contains_app_r, Contains_app_r.
    pose proof (Contains_self_app (Description w) EmptyString) as Hs.
    assert (Happ : forall s : string, s +:+ EmptyString = s).
    { induction s as [|a s IHs]; [reflexivity|].
      change (String a (s +:+ EmptyString) = String a s). now rewrite IHs. }
    now rewrite Happ in Hs.
  - apply IH.
Qed.

(** X19.  The message of [NoCompatibleWorkersError] starts with "no
    workers satisfying: ", and mentions the description of the spec and
    the description of every worker it carries. *)
Theorem NoCompatibleWorkersError_message (spec : WorkerSpec)
    (workers : list Worker) :
  String.prefix "no workers satisfying: "
    (Error (NoCompatibleWorkersError spec workers)) = true /\
  Contains (Error (NoCompatibleWorkersError spec workers))
    (SpecDescription spec) = true /\
  forall w, w ∈ workers ->
    Contains (Error (NoCompatibleWorkersError spec workers)) (Description w)
    = true.
Proof.
  unfold Error. split; [apply prefix_self_app|]. split.
  - apply Contains_app_r, Contains_self_app.
  - intros w Hw. do 3 apply Contains_app_r.
    now apply (workerLines_mention workers EmptyString w).
Qed.

(** ** Containers of resources *)

Section ResourceContainers.

(** What the pool passes through to the worker unchanged: the resource
    user, the metadata, the source and the params. *)
Variable ResourceRequest : Type.

(** [provider.FindWorkerForResourceCheckContainer] and the methods of a
    worker that the pool delegates to. *)
Variable FindWorkerForResourceCheckContainer :
  Z -> ResourceRequest -> string -> VersionedResourceTypes ->
  result error (option Worker).
Variable WorkerCreateResourceGetContainer :
  Worker -> ResourceRequest -> ContainerSpec -> VersionedResourceTypes ->
  string -> result error Container.
Variable WorkerFindOrCreateResourceCheckContainer :
  Worker -> ResourceRequest -> ContainerSpec -> VersionedResourceTypes ->
  string -> result error Container.

Variable Intn : nat -> nat.


(** [FindOrCreateResourceCheckContainer] (lines 270-311). *)
Definition FindOrCreateResourceCheckContainer (provider : WorkerProvider)
    (request : ResourceRequest) (spec : ContainerSpec)
    (resourceTypes : VersionedResourceTypes) (resourceType : string)
  : result error Container :=
  match FindWorkerForResourceCheckContainer (spec_TeamID spec) request
          resourceType resourceTypes with
  | Err err => Err err
  | Ok found =>
      let chosen :=
        match found with
        | Some worker => Ok worker
        | None => poolSatisfying Intn provider (spec_WorkerSpec spec) resourceTypes
        end in
      match chosen with
      | Err err => Err err
      | Ok worker =>
          WorkerFindOrCreateResourceCheckContainer worker request spec
            resourceTypes resourceType
      end
  end.

(** The workers that [AllSatisfying] prefers: the satisfying team-owned
    ones when there are any, else the satisfying general ones. *)
Definition preferredWorkers (workers : list Worker) (spec : WorkerSpec)
    (resourceTypes : VersionedResourceTypes) : list Worker :=
  match satisfyingOwned true workers spec resourceTypes with
  | [] => satisfyingOwned false workers spec resourceTypes
  | team => team
  end.

Lemma AllSatisfying_preferred provider spec resourceTypes workers :
  RunningWorkers provider = Ok workers ->
  AllSatisfying provider spec resourceTypes =
  match workers, preferredWorkers workers spec resourceTypes with
  | [], _ => Err ErrNoWorkers
  | _, [] => Err (NoCompatibleWorkersError spec workers)
  | _, preferred => Ok preferred
  end.
Proof.
  intros Hrun. unfold AllSatisfying, preferredWorkers. rewrite Hrun.
  rewrite satisfyingLoop_spec. simpl app.
  destruct workers as [|w ws]; [reflexivity|].
  change (length (w :: ws) =? 0)%nat with false. cbv iota.
  generalize (satisfyingOwned true (w :: ws) spec resourceTypes)
             (satisfyingOwned false (w :: ws) spec resourceTypes).
  intros [|t team] [|g general]; reflexivity.
Qed.

Lemma poolSatisfying_preferred provider spec resourceTypes workers :
  (forall n, (0 < n)%nat -> (Intn n < n)%nat) ->
  RunningWorkers provider = Ok workers ->
  preferredWorkers workers spec resourceTypes <> [] ->
  exists worker,
    worker ∈ preferredWorkers workers spec resourceTypes /\
    poolSatisfying Intn provider spec resourceTypes = Ok worker.
Proof.
  intros Hintn Hrun Hne. unfold poolSatisfying.
  rewrite (AllSatisfying_preferred _ _ _ _ Hrun).
  destruct workers as [|w0 ws].
  { exfalso. apply Hne. reflexivity. }
  destruct (preferredWorkers (w0 :: ws) spec resourceTypes) as [|p ps] eqn:Hp;
    [congruence|].
  assert (Hlen : (0 < length (p :: ps))%nat) by (simpl; lia).
  destruct (lookup_lt_is_Some_2 (p :: ps) (Intn (length (p :: ps)))
              (Hintn _ Hlen)) as [w Hw].
  exists w. split; [eapply list_elem_of_lookup_2; exact Hw|].
  change (length (p :: ps) =? 0)%nat with false. cbv iota.
  now rewrite Hw.
Qed.

(** X20.  Placement of a resource check container, with a random
    source that keeps [Intn n] below [n].  An error of the provider's
    lookup is returned as it is.  A worker that the provider already
    knows for the container is used without consulting the pool,
    whatever the pool would answer.  Otherwise an error of
    [RunningWorkers] is returned as it is, an empty pool gives
    [ErrNoWorkers], a pool in which no worker satisfies the spec gives
    [NoCompatibleWorkersError] with the spec and all running workers, and
    in each of these cases no worker is asked; else the container is
    delegated to one of the preferred workers: a satisfying team-owned
    worker whenever there is one, a satisfying general worker only when
    there is none. *)
Theorem FindOrCreateResourceCheckContainer_placement
    (provider : WorkerProvider) (request : ResourceRequest)
    (spec : ContainerSpec) (resourceTypes : VersionedResourceTypes)
    (resourceType : string) :
  (forall n, (0 < n)%nat -> (Intn n < n)%nat) ->
  match FindWorkerForResourceCheckContainer (spec_TeamID spec) request
          resourceType resourceTypes with
  | Err err =>
      FindOrCreateResourceCheckContainer provider request spec resourceTypes
        resourceType = Err err
  | Ok (Some worker) =>
      FindOrCreateResourceCheckContainer provider request spec resourceTypes
        resourceType =
      WorkerFindOrCreateResourceCheckContainer worker request spec
        resourceTypes resourceType
  | Ok None =>
      match RunningWorkers provider with
      | Err err =>
          FindOrCreateResourceCheckContainer provider request spec
            resourceTypes resourceType = Err err
      | Ok [] =>
          FindOrCreateResourceCheckContainer provider request spec
            resourceTypes resourceType = Err ErrNoWorkers
      | Ok workers =>
          match preferredWorkers workers (spec_WorkerSpec spec) resourceTypes with
          | [] =>
              FindOrCreateResourceCheckContainer provider request spec
                resourceTypes resourceType =
              Err (NoCompatibleWorkersError (spec_WorkerSpec spec) workers)
          | preferred =>
              exists worker,
                worker ∈ preferred /\
                (satisfyingOwned true workers (spec_WorkerSpec spec)
                   resourceTypes <> [] ->
                 worker ∈ satisfyingOwned true workers (spec_WorkerSpec spec)
                            resourceTypes) /\
                FindOrCreateResourceCheckContainer provider request spec
                  resourceTypes resourceType =
                WorkerFindOrCreateResourceCheckContainer worker request spec
                  resourceTypes resourceType
          end
      end
  end.
Proof.
  intros Hintn. unfold FindOrCreateResourceCheckContainer.
  destruct (FindWorkerForResourceCheckContainer _ _ _ _) as [[found|]|err];
    [reflexivity| |reflexivity].
  cbv zeta.
  destruct (RunningWorkers provider) as [workers|err] eqn:Hrun.
  - destruct workers as [|w0 ws] eqn:Hws.
    { unfold poolSatisfying, AllSatisfying. now rewrite Hrun. }
    rewrite <- Hws in *.
    destruct (preferredWorkers workers (spec_WorkerSpec spec) resourceTypes)
      as [|p ps] eqn:Hp.
    + unfold poolSatisfying.
      rewrite (AllSatisfying_preferred _ _ _ _ Hrun), Hws.
      rewrite <- Hws, Hp. reflexivity.
    + destruct (poolSatisfying_preferred provider (spec_WorkerSpec spec)
                  resourceTypes workers Hintn Hrun) as (w & Hw & Hsat).
      { rewrite Hp. discriminate. }
      exists w. rewrite Hp in Hw. split; [exact Hw|]. split.
      * intros Hteam. unfold preferredWorkers in Hp.
        destruct (satisfyingOwned true workers (spec_WorkerSpec spec)
                    resourceTypes) as [|t team]; [congruence|].
        now rewrite Hp.
      * now rewrite Hsat.
  - unfold poolSatisfying, AllSatisfying. now rewrite Hrun.
Qed.


End ResourceContainers.

End Pool.

Arguments error : clear implicits.
Arguments ContainerSpec : clear implicits.
Arguments WorkerMethods : clear implicits.
Arguments WorkerProvider : clear implicits.

(** ** A pool of four workers

    Workers 2 and 4 belong to a team, 1 and 3 are general; worker 3 does
    not satisfy any spec; workers 1 and 2 have reached their container
    limit. *)

Definition exampleMethods : WorkerMethods nat string string :=
  {| Satisfying := fun w _ _ =>
       if (w =? 3)%nat then Err (ErrorString "platform mismatch") else Ok w;
     IsOwnedByTeam := Nat.even;
     Description := fun _ => "worker";
     SpecDescription := fun _ => "platform 'linux'";
     WorkerFindOrCreateBuildContainer := fun w _ _ _ _ =>
       if (w <=? 2)%nat
       then Err (ErrorString
                   "worker already has the maximum number of active containers (250)")
       else if (w =? 3)%nat then Ok "container-on-3"
       else Err (ErrorString "garden unreachable");
     VolumeOn := fun input w => Ok (String.eqb input "A" && (w =? 2)%nat) |}.

Definition exampleProvider (workers : list nat) : WorkerProvider nat :=
  {| RunningWorkers := Ok workers;
     FindWorkerForBuildContainer := fun _ _ _ => Ok None |}.

Definition exampleSpec : WorkerSpec :=
  {| Platform := "linux"; ResourceType := ""; Tags := []; TeamID := 1 |}.

Definition exampleContainerSpec : ContainerSpec string :=
  {| spec_WorkerSpec := exampleSpec; spec_TeamID := 1; Inputs := ["A"; "B"] |}.

Lemma AllSatisfying_tenant_preference_witness :
  RunningWorkers (exampleProvider [1; 2; 3; 4]%nat) = Ok [1; 2; 3; 4]%nat /\
  AllSatisfying (H := exampleMethods) (exampleProvider [1; 2; 3; 4]%nat)
    exampleSpec [] = Ok [2; 4]%nat.
Proof.
  split; [reflexivity|].
  destruct (AllSatisfying_tenant_preference (H := exampleMethods)
              (exampleProvider [1; 2; 3; 4]%nat) exampleSpec []
              [1; 2; 3; 4]%nat eq_refl)
    as (_ & Hteam & _).
  apply Hteam; discriminate.
Defined.

Lemma findWorker_fallback_policy_witness :
  Forall (limitReached (H := exampleMethods) 7 "plan" exampleContainerSpec [])
         [1; 2]%nat /\
  findWorkerNotRunningVTXTask (H := exampleMethods) [1; 2; 3; 4]%nat 7 "plan"
    exampleContainerSpec [] = ([1; 2; 3]%nat, Ok "container-on-3").
Proof.
  assert (Hskip : Forall (limitReached (H := exampleMethods) 7 "plan"
                            exampleContainerSpec []) [1; 2]%nat).
  { repeat constructor; eexists; split; reflexivity. }
  split; [exact Hskip|].
  destruct (findWorker_fallback_policy (H := exampleMethods) [1; 2]%nat 7 "plan"
              exampleContainerSpec [] Hskip)
    as (_ & Hok & _).
  apply (Hok 3%nat [4]%nat "container-on-3"). reflexivity.
Defined.

Lemma poolSatisfying_member_witness :
  AllSatisfying (H := exampleMethods) (exampleProvider [1; 2; 3; 4]%nat)
    exampleSpec [] = Ok [2; 4]%nat /\
  poolSatisfying (H := exampleMethods) Nat.pred
    (exampleProvider [1; 2; 3; 4]%nat) exampleSpec [] = Ok 4%nat.
Proof.
  assert (Hall : AllSatisfying (H := exampleMethods)
                   (exampleProvider [1; 2; 3; 4]%nat) exampleSpec []
                 = Ok [2; 4]%nat) by reflexivity.
  split; [exact Hall|].
  pose proof (poolSatisfying_member (H := exampleMethods) Nat.pred
                (exampleProvider [1; 2; 3; 4]%nat) exampleSpec []) as H.
  rewrite Hall in H.
  destruct H as (_ & w & Hsat & Hlookup & _).
  - intros n Hn. lia.
  - rewrite Hsat. simpl in Hlookup. now injection Hlookup as ->.
Defined.

Lemma FindOrCreateBuildContainer_most_volumes_witness :
  exists highestCount,
    List.filter (countIs (H := exampleMethods) (Inputs exampleContainerSpec)
                   highestCount) [2; 4]%nat <> [] /\
    FindOrCreateBuildContainer (H := exampleMethods)
      (exampleProvider [1; 2; 3; 4]%nat) 7 "plan" exampleContainerSpec [] =
    findWorkerNotRunningVTXTask (H := exampleMethods)
      (List.filter (countIs (H := exampleMethods) (Inputs exampleContainerSpec)
                      highestCount) [2; 4]%nat)
      7 "plan" exampleContainerSpec [].
Proof.
  destruct (FindOrCreateBuildContainer_most_volumes (H := exampleMethods)
              (exampleProvider [1; 2; 3; 4]%nat) 7 "plan" exampleContainerSpec
              [] [2; 4]%nat)
    as (highestCount & _ & Hne & Hrun).
  - reflexivity.
  - reflexivity.
  - intros w Hw.
    apply elem_of_cons in Hw as [-> | Hw]; [eexists; reflexivity|].
    apply elem_of_cons in Hw as [-> | Hw]; [eexists; reflexivity|].
    inversion Hw.
  - exists highestCount. split; [exact Hne | exact Hrun].
Defined.

Lemma NoCompatibleWorkersError_message_witness :
  Contains
    (Error (H := exampleMethods) (NoCompatibleWorkersError exampleSpec [1; 3]%nat))
    (Description (WorkerMethods := exampleMethods) 3%nat) = true.
Proof.
  destruct (NoCompatibleWorkersError_message (H := exampleMethods) exampleSpec
              [1; 3]%nat)
    as (_ & _ & Hworkers).
  apply Hworkers. apply elem_of_cons. right. apply list_elem_of_here.
Defined.

(** A provider lookup that knows no worker for a check container, and
    workers that name themselves in the container they return. *)
Definition exampleCheckContainer (w : nat) (request : unit)
    (spec : ContainerSpec string) (resourceTypes : VersionedResourceTypes)
    (resourceType : string) : result (error nat) string :=
  Ok ("check-" +:+ resourceType +:+ "-on-" +:+ Sprintf_d (Z.of_nat w)).

Lemma FindOrCreateResourceCheckContainer_placement_witness :
  exists worker,
    worker ∈ satisfyingOwned (H := exampleMethods) true [1; 2; 3; 4]%nat
               exampleSpec [] /\
    FindOrCreateResourceCheckContainer (H := exampleMethods) unit
      (fun _ _ _ _ => Ok None) exampleCheckContainer Nat.pred
      (exampleProvider [1; 2; 3; 4]%nat) tt exampleContainerSpec [] "git"
    = exampleCheckContainer worker tt exampleContainerSpec [] "git".
Proof.
  pose proof (FindOrCreateResourceCheckContainer_placement
                (H := exampleMethods) unit (fun _ _ _ _ => Ok None)
                exampleCheckContainer Nat.pred
                (exampleProvider [1; 2; 3; 4]%nat) tt exampleContainerSpec []
                "git") as H.
  cbv beta iota in H.
  change (RunningWorkers (exampleProvider [1; 2; 3; 4]%nat))
    with (Ok [1; 2; 3; 4]%nat : result (error nat) (list nat)) in H.
  change (preferredWorkers [1; 2; 3; 4]%nat
            (spec_WorkerSpec exampleContainerSpec) [])
    with [2; 4]%nat in H.
  cbv beta iota in H.
  destruct H as (w & _ & Hteam & Hrun).
  - intros n Hn. lia.
  - exists w. split; [apply Hteam; discriminate | exact Hrun].
Defined.


End worker.

(** * Package [exec]: the task step *)

Module exec.

Definition taskProcessPropertyName : string := "concourse:task-process".
Definition taskExitStatusPropertyName : string := "concourse:exit-status".

(** ** Configuration and collaborators *)

Record TaskInputConfig := { input_Name : string; input_Path : string }.
Record TaskOutputConfig := { output_Name : string; output_Path : string }.

Definition Source := gmap string string.
Definition Version := gmap string string.

Record ImageResourceConfig := { image_Type : string; image_Source : Source }.
Record TaskRunConfig := { run_Path : string; run_Args : list string }.

(** [atc.TaskConfig].  [Params] is a Go map; the list fixes the order in
    which [range] happens to enumerate it. *)
Record TaskConfig := {
  Platform : string;
  Image : string;
  ImageResource : option ImageResourceConfig;
  Params : list (string * string);
  config_Run : TaskRunConfig;
  Inputs : list TaskInputConfig;
  Outputs : list TaskOutputConfig
}.

Inductive error :=
| ErrInterrupted
| ErrImageUnavailable
| MissingInputsError (missing : list string)
| ErrImageGetDidNotProduceVolume (taskName : string)
| ErrorString (msg : string)
| Panic (msg : string)
| OutOfFuel.

(** [err.Error()] of the errors this package declares. *)
Definition Error (err : error) : string :=
  match err with
  | ErrInterrupted => "interrupted"
  | ErrImageUnavailable => "no versions of image available"
  | MissingInputsError missing =>
      "missing inputs: " +:+ String.concat ", " missing
  | ErrImageGetDidNotProduceVolume taskName =>
      "getting the image for task '" +:+ taskName +:+ "' did not produce a volume"
  | ErrorString msg => msg
  | Panic msg => msg
  | OutOfFuel => "out of fuel"
  end.

(** [baggageclaim.Volume], known by its handle. *)
Record Volume := { Handle : string }.

Record VolumeMount := { mount_Volume : Volume; MountPath : string }.

(** [baggageclaim.Client] of one worker.  [CreateVolume n] is the outcome
    of the call made when the step has already created [n] volumes. *)
Record BaggageclaimClient := {
  LookupVolume : string -> result error (option Volume);
  CreateVolume : nat -> result error Volume
}.

Record ProcessSpec := {
  spec_Path : string;
  spec_Args : list string;
  spec_Env : list string;
  spec_Dir : string;
  spec_User : string
}.

Record Process := { ID : string }.

(** [worker.Container]: its handle, its properties and volume mounts, and
    the outcome of the remote calls the step makes on it. *)
Record Container := {
  container_Handle : string;
  Properties : gmap string string;
  VolumeMounts : list VolumeMount;
  SetPropertyError : string -> string -> option error;
  Attach : string -> result error Process;
  container_Run : ProcessSpec -> result error Process;
  StreamInError : string -> option error
}.

Definition withProperty (c : Container) (name value : string) : Container :=
  {| container_Handle := container_Handle c;
     Properties := <[name := value]> (Properties c);
     VolumeMounts := VolumeMounts c;
     SetPropertyError := SetPropertyError c;
     Attach := Attach c;
     container_Run := container_Run c;
     StreamInError := StreamInError c |}.

(** [container.Property(name)]: an error when the property is absent. *)
Definition Property (c : Container) (name : string) : result error string :=
  match Properties c !! name with
  | Some v => Ok v
  | None => Err (ErrorString ("property does not exist: " +:+ name))
  end.

Record TaskContainerSpec := {
  cspec_Platform : string;
  cspec_Tags : list string;
  cspec_Privileged : bool;
  cspec_Inputs : list VolumeMount;
  cspec_Outputs : list VolumeMount;
  cspec_ImageVolume : option Volume;
  cspec_Image : string
}.

(** The kinds of [ArtifactSource] found in a source repository: the task
    step itself (registered when the task declares no outputs), a
    [containerSource] of one output, and sources registered by other
    kinds of step. *)
Inductive ArtifactSource :=
| TaskStepSource (name : string)
| containerSource (artifactsRoot container : string)
    (outputConfig : TaskOutputConfig) (volumeHandle : string)
| ForeignSource (name : string).

Record inputPair := { pair_input : TaskInputConfig; pair_source : ArtifactSource }.

Inductive ContainerStage := ContainerStageCheck | ContainerStageGet | ContainerStageRun.

(** Which case of the [select] in [Run] fires. *)
Inductive SelectCase :=
| Signalled
| Exited (status : Z)
| WaitFailed (err : error).

Section Step.

Context {Worker : Type} `{EqDecision Worker}.

(** The calls the step makes on its collaborators, in order. *)
Inductive Event :=
| EvInitializing
| EvStarted
| EvFinished (status : Z)
| EvCreateVolume (w : Worker)
| EvVolumeRelease (handle : string)
| EvTrackerInit (w : Worker) (stage : ContainerStage)
| EvResourceRelease (w : Worker) (stage : ContainerStage)
| EvGet (w : Worker) (version : Version)
| EvCacheInitialize (w : Worker) (version : Version)
| EvCreateContainer (w : Worker) (spec : TaskContainerSpec)
| EvStreamIn (path : string)
| EvStreamTo (inputName : string)
| EvRun (spec : ProcessSpec)
| EvAttach (processID : string)
| EvSetProperty (name value : string)
| EvStop (kill : bool)
| EvReadyClosed.

(** Everything outside the step: the config source, the worker pool, the
    workers with their volume managers and resource trackers, the sources
    other steps registered, and the scheduler's choice at the [select]. *)
Record World := {
  FetchConfig : result error TaskConfig;
  FindContainerForIdentifier : result error (option Container);
  AllSatisfying : worker.WorkerSpec -> result error (list Worker);
  VolumeManager : Worker -> option BaggageclaimClient;
  CreateContainer : Worker -> TaskContainerSpec -> result error Container;
  ForeignVolumeOn : string -> Worker -> result error (option Volume);
  StreamToError : ArtifactSource -> TaskInputConfig -> option error;
  TrackerInit : Worker -> result error unit;
  Check : Worker -> Source -> result error (list Version);
  TrackerInitWithCache : Worker -> Version -> result error unit;
  IsInitialized : Worker -> Version -> result error bool;
  GetRunError : Worker -> Version -> option error;
  CacheVolume : Worker -> Version -> result error (option Volume);
  Select : SelectCase
}.

(** The mutable part of a [*TaskStep], the source repository it shares
    with the other steps of the build, and the calls made so far. *)
Record TaskStep := {
  repo : gmap string ArtifactSource;
  container : option Container;
  process : option Process;
  exitStatus : Z;
  EnvironmentVariables : list string;
  volumesCreated : nat;
  events : list Event
}.

Definition newTaskStep (r : gmap string ArtifactSource) : TaskStep :=
  {| repo := r; container := None; process := None; exitStatus := 0;
     EnvironmentVariables := []; volumesCreated := 0%nat; events := [] |}.

Definition with_repo (f : gmap string ArtifactSource -> gmap string ArtifactSource)
    (st : TaskStep) : TaskStep :=
  {| repo := f (repo st); container := container st; process := process st;
     exitStatus := exitStatus st;
     EnvironmentVariables := EnvironmentVariables st;
     volumesCreated := volumesCreated st; events := events st |}.

Definition with_container (c : option Container) (st : TaskStep) : TaskStep :=
  {| repo := repo st; container := c; process := process st;
     exitStatus := exitStatus st;
     EnvironmentVariables := EnvironmentVariables st;
     volumesCreated := volumesCreated st; events := events st |}.

Definition with_process (p : option Process) (st : TaskStep) : TaskStep :=
  {| repo := repo st; container := container st; process := p;
     exitStatus := exitStatus st;
     EnvironmentVariables := EnvironmentVariables st;
     volumesCreated := volumesCreated st; events := events st |}.

Definition with_exitStatus (n : Z) (st : TaskStep) : TaskStep :=
  {| repo := repo st; container := container st; process := process st;
     exitStatus := n;
     EnvironmentVariables := EnvironmentVariables st;
     volumesCreated := volumesCreated st; events := events st |}.

Definition with_env (env : list string) (st : TaskStep) : TaskStep :=
  {| repo := repo st; container := container st; process := process st;
     exitStatus := exitStatus st;
     EnvironmentVariables := env;
     volumesCreated := volumesCreated st; events := events st |}.

Definition with_event (e : Event) (st : TaskStep) : TaskStep :=
  {| repo := repo st; container := container st; process := process st;
     exitStatus := exitStatus st;
     EnvironmentVariables := EnvironmentVariables st;
     volumesCreated := volumesCreated st; events := (events st ++ [e])%list |}.

Definition with_volumeCreated (st : TaskStep) : TaskStep :=
  {| repo := repo st; container := container st; process := process st;
     exitStatus := exitStatus st;
     EnvironmentVariables := EnvironmentVariables st;
     volumesCreated := S (volumesCreated st); events := events st |}.

(** ** The step monad: state passing with early error return *)

Definition M (A : Type) : Type := TaskStep -> result error A * TaskStep.

Definition ret {A} (a : A) : M A := fun st => (Ok a, st).
Definition fail {A} (e : error) : M A := fun st => (Err e, st).
Definition bind {A B} (m : M A) (k : A -> M B) : M B :=
  fun st =>
    match m st with
    | (Ok a, st') => k a st'
    | (Err e, st') => (Err e, st')
    end.
Definition lift {A} (r : result error A) : M A := fun st => (r, st).
Definition liftError (r : option error) : M unit :=
  fun st => match r with Some e => (Err e, st) | None => (Ok tt, st) end.
Definition modify (f : TaskStep -> TaskStep) : M unit := fun st => (Ok tt, f st).
Definition emit (e : Event) : M unit := modify (with_event e).
(** [defer f] around [m]: [f] runs when [m] returns, however it returns. *)
Definition defer {A} (f : TaskStep -> TaskStep) (m : M A) : M A :=
  fun st => let '(r, st') := m st in (r, f st').

#[global] Instance M_ret : MRet M := @ret.
#[global] Instance M_bind : MBind M := fun A B k m => bind m k.

(** ** The step *)

(** [path.Join] and [filepath.Join] of Go's standard library. *)
Variable path_Join : string -> string -> string.
Variable filepath_Join : string -> string -> string.

Variable world : World.

(** The fields of [TaskStep] fixed at construction. *)
Variable sourceName : string.
Variable tags : list string.
Variable privileged : bool.
Variable artifactsRoot : string.

Definition artifactsPath (outputConfig : TaskOutputConfig) (root : string) : string :=
  let outputSrc :=
    if (String.length (output_Path outputConfig) =? 0)%nat
    then output_Name outputConfig else output_Path outputConfig in
  path_Join root outputSrc +:+ "/".

Definition inputDestination (config : TaskInputConfig) : string :=
  let subdir :=
    if String.eqb (input_Path config) "" then input_Name config
    else input_Path config in
  filepath_Join artifactsRoot subdir.

Definition envForParams (params : list (string * string)) : list string :=
  map (fun kv => fst kv +:+ "=" +:+ snd kv) params.

(** [VolumeOn] of each kind of source: [(volume, true, nil)] is
    [Ok (Some volume)], [(nil, false, nil)] is [Ok None].
    [TaskStep.VolumeOn] (lines 479-482) returns nothing;
    [containerSource.VolumeOn] (lines 804-813) looks its handle up. *)
Definition VolumeOn (src : ArtifactSource) (w : Worker)
  : result error (option Volume) :=
  match src with
  | TaskStepSource _ => Ok None
  | containerSource _ _ _ volumeHandle =>
      match VolumeManager world w with
      | Some baggageclaimClient =>
          if (0 <? String.length volumeHandle)%nat
          then match LookupVolume baggageclaimClient volumeHandle with
               | Err err => Err err
               | Ok found => Ok found
               end
          else Ok None
      | None => Ok None
      end
  | ForeignSource name => ForeignVolumeOn world name w
  end.

(** The loop of [inputsOn] (lines 525-548) and the check after it. *)
Fixpoint inputsOnLoop (r : gmap string ArtifactSource)
    (inputs : list TaskInputConfig) (chosenWorker : Worker)
    (mounts : list VolumeMount) (inputPairs : list inputPair)
    (missingInputs : list string)
  : result error (list VolumeMount * list inputPair) :=
  match inputs with
  | [] =>
      if (0 <? length missingInputs)%nat
      then Err (MissingInputsError missingInputs)
      else Ok (mounts, inputPairs)
  | input :: rest =>
      match r !! input_Name input with
      | None =>
          inputsOnLoop r rest chosenWorker mounts inputPairs
            (missingInputs ++ [input_Name input])%list
      | Some source =>
          match VolumeOn source chosenWorker with
          | Err err => Err err
          | Ok (Some volume) =>
              inputsOnLoop r rest chosenWorker
                (mounts ++ [{| mount_Volume := volume;
                               MountPath := inputDestination input |}])%list
                inputPairs missingInputs
          | Ok None =>
              inputsOnLoop r rest chosenWorker mounts
                (inputPairs ++ [{| pair_input := input;
                                   pair_source := source |}])%list
                missingInputs
          end
      end
  end.

Definition inputsOn (inputs : list TaskInputConfig) (chosenWorker : Worker)
  : M (list VolumeMount * list inputPair) :=
  fun st => (inputsOnLoop (repo st) inputs chosenWorker [] [] [], st).

(** [for _, mount := range mounts { mount.Volume.Release(0) }]. *)
Fixpoint releaseAll (mounts : list VolumeMount) : M unit :=
  match mounts with
  | [] => mret tt
  | mount :: rest =>
      emit (EvVolumeRelease (Handle (mount_Volume mount)));; releaseAll rest
  end.

(** The loop of [chooseWorkerWithMostVolumes] (lines 489-508);
    [chosenWorker] is [None] while it is still [nil]. *)
Fixpoint chooseLoop (compatibleWorkers : list Worker)
    (inputs : list TaskInputConfig) (chosenWorker : option Worker)
    (inputMounts : list VolumeMount) (inputsToStream : list inputPair)
  : M (option Worker * list VolumeMount * list inputPair) :=
  match compatibleWorkers with
  | [] => mret (chosenWorker, inputMounts, inputsToStream)
  | w :: rest =>
      '(mounts, toStream) ← inputsOn inputs w;
      if (length inputMounts <=? length mounts)%nat
      then releaseAll inputMounts;;
           chooseLoop rest inputs (Some w) mounts toStream
      else releaseAll mounts;;
           chooseLoop rest inputs chosenWorker inputMounts inputsToStream
  end.

Definition chooseWorkerWithMostVolumes (compatibleWorkers : list Worker)
    (inputs : list TaskInputConfig)
  : M (option Worker * list VolumeMount * list inputPair) :=
  chooseLoop compatibleWorkers inputs None [] [].

(** [step.repo.RegisterSource(name, source)]: the last writer wins. *)
Definition RegisterSource (name : string) (src : ArtifactSource) : M unit :=
  modify (with_repo (<[name := src]>)).

(** The inner loop of [registerSource] (lines 396-401). *)
Definition registerMounts (c : Container) (output : TaskOutputConfig)
    (volumeMounts : list VolumeMount) (r : gmap string ArtifactSource)
  : gmap string ArtifactSource :=
  fold_left
    (fun r mount =>
       if String.eqb (MountPath mount) (artifactsPath output artifactsRoot)
       then <[output_Name output :=
                containerSource artifactsRoot (container_Handle c) output
                  (Handle (mount_Volume mount))]> r
       else r)
    volumeMounts r.

(** The outer loop of [registerSource] (lines 392-406). *)
Definition registerOutputs (c : Container) (outputs : list TaskOutputConfig)
    (r : gmap string ArtifactSource) : gmap string ArtifactSource :=
  fold_left
    (fun r output =>
       if (0 <? length (VolumeMounts c))%nat
       then registerMounts c output (VolumeMounts c) r
       else <[output_Name output :=
                containerSource artifactsRoot (container_Handle c) output ""]> r)
    outputs r.

(** [registerSource] (lines 386-408). *)
Definition registerSource (config : TaskConfig) : M unit :=
  fun st =>
    if (length (Outputs config) =? 0)%nat
    then RegisterSource sourceName (TaskStepSource sourceName) st
    else
      match container st with
      | None => (Err (Panic "nil pointer dereference"), st)
      | Some c => (Ok tt, with_repo (registerOutputs c (Outputs config)) st)
      end.

(** [step.container], which must not be [nil] when a method is called. *)
Definition theContainer : M Container :=
  fun st =>
    match container st with
    | Some c => (Ok c, st)
    | None => (Err (Panic "nil pointer dereference"), st)
    end.

Definition SetProperty (name value : string) : M unit :=
  c ← theContainer;
  emit (EvSetProperty name value);;
  match SetPropertyError c name value with
  | Some err => fail err
  | None => modify (with_container (Some (withProperty c name value)))
  end.

Definition Stop (kill : bool) : M unit :=
  _ ← theContainer; emit (EvStop kill).

(** [createContainerDir] (lines 828-845): stream an empty tar to [dir]. *)
Definition createContainerDir (dir : string) : M unit :=
  c ← theContainer;
  emit (EvStreamIn dir);;
  liftError (StreamInError c dir).

Definition ensureBuildDirExists : M unit := createContainerDir artifactsRoot.

Fixpoint streamInputs (inputPairs : list inputPair) : M unit :=
  match inputPairs with
  | [] => mret tt
  | p :: rest =>
      emit (EvStreamTo (input_Name (pair_input p)));;
      liftError (StreamToError world (pair_source p) (pair_input p));;
      streamInputs rest
  end.

Fixpoint setupOutputs (outputs : list TaskOutputConfig) : M unit :=
  match outputs with
  | [] => mret tt
  | output :: rest =>
      createContainerDir (artifactsPath output artifactsRoot);;
      setupOutputs rest
  end.

(** [getContainerImage] (lines 566-655) on a worker; it returns the
    version of the image that the get resource holds. *)
Definition getContainerImage (w : Worker) (imageResource : ImageResourceConfig)
  : M Version :=
  emit (EvTrackerInit w ContainerStageCheck);;
  lift (TrackerInit world w);;
  defer (with_event (EvResourceRelease w ContainerStageCheck))
    (versions ← lift (Check world w (image_Source imageResource));
     match versions with
     | [] => fail ErrImageUnavailable
     | version0 :: _ =>
         emit (EvTrackerInit w ContainerStageGet);;
         lift (TrackerInitWithCache world w version0);;
         isInitialized ← lift (IsInitialized world w version0);
         (if isInitialized : bool then mret tt
          else emit (EvGet w version0);;
               liftError (GetRunError world w version0);;
               emit (EvCacheInitialize w version0));;
         mret version0
     end).

(** The loop over [config.Outputs] in [createContainer] (lines 290-311). *)
Fixpoint createOutputVolumes (chosenWorker : Worker)
    (outputs : list TaskOutputConfig) (outputMounts : list VolumeMount)
  : M (list VolumeMount) :=
  match outputs with
  | [] => mret outputMounts
  | output :: rest =>
      match VolumeManager world chosenWorker with
      | None => mret outputMounts
      | Some baggageclaimClient =>
          n ← (fun st => (Ok (volumesCreated st), st));
          emit (EvCreateVolume chosenWorker);;
          modify with_volumeCreated;;
          ourVolume ← lift (CreateVolume baggageclaimClient n);
          createOutputVolumes chosenWorker rest
            (outputMounts ++
               [{| mount_Volume := ourVolume;
                   MountPath := artifactsPath output artifactsRoot |}])%list
      end
  end.

(** [createContainer] (lines 283-384).  It calls itself on the workers
    other than the chosen one when creation fails; [fuel] bounds these
    calls.  A [nil] chosen worker (an empty list of workers) makes the
    first method call on it panic. *)
Fixpoint createContainer (fuel : nat) (compatibleWorkers : list Worker)
    (config : TaskConfig) : M (Container * list inputPair) :=
  match fuel with
  | O => fail OutOfFuel
  | S fuel' =>
      '(chosen, inputMounts, inputsToStream) ←
        chooseWorkerWithMostVolumes compatibleWorkers (Inputs config);
      match chosen with
      | None => fail (Panic "nil pointer dereference")
      | Some chosenWorker =>
          outputMounts ← createOutputVolumes chosenWorker (Outputs config) [];
          '(imageVolume, image) ←
            match ImageResource config with
            | Some imageResource =>
                version ← getContainerImage chosenWorker imageResource;
                found ← lift (CacheVolume world chosenWorker version);
                match found with
                | None => fail (ErrImageGetDidNotProduceVolume sourceName)
                | Some imageVolume => mret (Some imageVolume, EmptyString)
                end
            | None => mret (None, Image config)
            end;
          let containerSpec :=
            {| cspec_Platform := Platform config;
               cspec_Tags := tags;
               cspec_Privileged := privileged;
               cspec_Inputs := inputMounts;
               cspec_Outputs := outputMounts;
               cspec_ImageVolume := imageVolume;
               cspec_Image := image |} in
          emit (EvCreateContainer chosenWorker containerSpec);;
          match CreateContainer world chosenWorker containerSpec with
          | Err err =>
              let newCompatibleWorkers :=
                filter (fun worker => worker ≠ chosenWorker) compatibleWorkers in
              if (length newCompatibleWorkers =? 0)%nat
              then fail (ErrorString
                           "Failed to create container on all compatible workers")
              else createContainer fuel' newCompatibleWorkers config
          | Ok c =>
              match ImageResource config with
              | Some _ => emit (EvResourceRelease chosenWorker ContainerStageGet)
              | None => mret tt
              end;;
              releaseAll inputMounts;;
              releaseAll outputMounts;;
              mret (c, inputsToStream)
          end
      end
  end.

(** ** [Run] (lines 126-281) *)

(** Lines 150-180: a container for the step exists.  The result is [true]
    when the process had already exited and [Run] returns [nil] at once,
    [false] when the step re-attached and goes on to wait. *)
Definition recover (config : TaskConfig) (c : Container) : M bool :=
  modify (with_container (Some c));;
  match Property c taskExitStatusPropertyName with
  | Ok exitStatusProp =>
      match Sscanf_d exitStatusProp with
      | Err msg => fail (ErrorString msg)
      | Ok n =>
          modify (with_exitStatus n);;
          registerSource config;;
          mret true
      end
  | Err _ =>
      match Property c taskProcessPropertyName with
      | Err err => fail err
      | Ok processID =>
          emit (EvAttach processID);;
          p ← lift (Attach c processID);
          modify (with_process (Some p));;
          mret false
      end
  end.

(** Lines 182-239: no container exists; a new session. *)
Definition workerSpecFor (config : TaskConfig) : worker.WorkerSpec :=
  {| worker.Platform := Platform config;
     worker.Tags := tags;
     worker.ResourceType :=
       match ImageResource config with
       | Some imageResource => image_Type imageResource
       | None => EmptyString
       end;
     worker.TeamID := 0 |}.

Definition newSession (config : TaskConfig) : M unit :=
  modify (with_container None);;
  emit EvInitializing;;
  let workerSpec := workerSpecFor config in
  compatibleWorkers ← lift (AllSatisfying world workerSpec);
  '(c, inputsToStream) ←
    createContainer (S (length compatibleWorkers)) compatibleWorkers config;
  modify (with_container (Some c));;
  ensureBuildDirExists;;
  streamInputs inputsToStream;;
  setupOutputs (Outputs config);;
  emit EvStarted;;
  let spec :=
    {| spec_Path := run_Path (config_Run config);
       spec_Args := run_Args (config_Run config);
       spec_Env := envForParams (Params config);
       spec_Dir := artifactsRoot;
       spec_User := "root" |} in
  emit (EvRun spec);;
  p ← lift (container_Run c spec);
  modify (with_process (Some p));;
  SetProperty taskProcessPropertyName (ID p).

(** Lines 244-280: the [select] on the signal, the exit status and the
    wait error. *)
Definition await (config : TaskConfig) : M unit :=
  match Select world with
  | Signalled =>
      registerSource config;;
      Stop false;;
      fail ErrInterrupted
  | Exited status =>
      registerSource config;;
      modify (with_exitStatus status);;
      SetProperty taskExitStatusPropertyName (Sprintf_d status);;
      emit (EvFinished status)
  | WaitFailed err => fail err
  end.

(** Lines 145-240: the recovery probe and its two branches.  An error of
    [FindContainerForIdentifier] is not returned: it starts a new session
    like a container that was not found. *)
Definition prepare (config : TaskConfig) : M bool :=
  match FindContainerForIdentifier world with
  | Ok (Some c) => recover config c
  | Ok None | Err _ => newSession config;; mret false
  end.

Definition Run : M unit :=
  config ← lift (FetchConfig world);
  modify (with_env (envForParams (Params config)));;
  completed ← prepare config;
  if completed : bool then mret tt
  else emit EvReadyClosed;; await config.

(** [Result] (lines 415-428): what the caller's pointer receives, and
    whether the step knows the type. *)
Inductive ResultPointer := SuccessPointer | ExitStatusPointer | OtherPointer.
Inductive ResultValue := Success (v : bool) | ExitStatus (v : Z).

Definition Result (st : TaskStep) (x : ResultPointer) : option ResultValue * bool :=
  match x with
  | SuccessPointer => (Some (Success (exitStatus st =? 0)), true)
  | ExitStatusPointer => (Some (ExitStatus (exitStatus st)), true)
  | OtherPointer => (None, false)
  end.

(** ** Reasoning about the step monad *)

Lemma bind_unfold {A B} (m : M A) (k : A -> M B) (st : TaskStep) :
  (m ≫= k) st =
  match m st with
  | (Ok a, st') => k a st'
  | (Err e, st') => (Err e, st')
  end.
Proof. reflexivity. Qed.

Lemma bind_Ok_inv {A B} (m : M A) (k : A -> M B) st b st' :
  (m ≫= k) st = (Ok b, st') ->
  exists a st1, m st = (Ok a, st1) /\ k a st1 = (Ok b, st').
Proof.
  rewrite bind_unfold. destruct (m st) as [[a|e] st1]; intros E.
  - eauto.
  - discriminate.
Qed.

Lemma bind_Ok {A B} (m : M A) (k : A -> M B) st a st1 :
  m st = (Ok a, st1) -> (m ≫= k) st = k a st1.
Proof. intros E. rewrite bind_unfold, E. reflexivity. Qed.


Lemma bind_modify {B} (f : TaskStep -> TaskStep) (k : unit -> M B) st :
  (modify f ≫= k) st = k tt (f st).
Proof. reflexivity. Qed.

Lemma bind_emit {B} (e : Event) (k : unit -> M B) st :
  (emit e ≫= k) st = k tt (with_event e st).
Proof. reflexivity. Qed.

(** A computation leaves a component [f] of the step untouched. *)
Definition preserves {A X} (f : TaskStep -> X) (m : M A) : Prop :=
  forall st, f (snd (m st)) = f st.

Lemma preserves_bind {A B X} (f : TaskStep -> X) (m : M A) (k : A -> M B) :
  preserves f m -> (forall a, preserves f (k a)) -> preserves f (m ≫= k).
Proof.
  intros Hm Hk st. rewrite bind_unfold.
  specialize (Hm st). destruct (m st) as [[a|e] st1]; simpl in *.
  - rewrite Hk. exact Hm.
  - exact Hm.
Qed.

Lemma preserves_ret {A X} (f : TaskStep -> X) (a : A) : preserves f (mret a).
Proof. intros st. reflexivity. Qed.

Lemma preserves_fail {A X} (f : TaskStep -> X) (e : error) :
  preserves f (fail e : M A).
Proof. intros st. reflexivity. Qed.

Lemma preserves_lift {A X} (f : TaskStep -> X) (r : result error A) :
  preserves f (lift r).
Proof. intros st. reflexivity. Qed.

Lemma preserves_liftError {X} (f : TaskStep -> X) (r : option error) :
  preserves f (liftError r).
Proof. intros st. unfold liftError. destruct r; reflexivity. Qed.

Lemma preserves_modify {X} (f : TaskStep -> X) (g : TaskStep -> TaskStep) :
  (forall st, f (g st) = f st) -> preserves f (modify g).
Proof. intros Hg st. apply Hg. Qed.

Lemma preserves_defer {A X} (f : TaskStep -> X) (g : TaskStep -> TaskStep)
    (m : M A) :
  (forall st, f (g st) = f st) -> preserves f m -> preserves f (defer g m).
Proof.
  intros Hg Hm st. unfold defer. specialize (Hm st).
  destruct (m st) as [r st1]. simpl in *. now rewrite Hg.
Qed.

Lemma preserves_theContainer {X} (f : TaskStep -> X) : preserves f theContainer.
Proof. intros st. unfold theContainer. destruct (container st); reflexivity. Qed.

Lemma preserves_inputsOn {X} (f : TaskStep -> X) inputs w :
  preserves f (inputsOn inputs w).
Proof. intros st. reflexivity. Qed.

Lemma preserves_gets {A X} (f : TaskStep -> X) (g : TaskStep -> A) :
  preserves f (fun st => (Ok (g st), st)).
Proof. intros st. reflexivity. Qed.

Create HintDb frame.
#[local] Hint Resolve preserves_ret preserves_fail preserves_lift
  preserves_liftError preserves_theContainer preserves_inputsOn
  preserves_gets : frame.

Ltac frame_step :=
  match goal with
  | |- preserves _ (mbind _ _) => apply preserves_bind
  | |- preserves _ (emit _) => apply preserves_modify; reflexivity
  | |- preserves _ (modify _) => apply preserves_modify; reflexivity
  | |- preserves _ (defer _ _) => apply preserves_defer; [reflexivity|]
  | |- preserves _ (match ?x with _ => _ end) => destruct x
  | |- forall _, _ => intro
  | |- _ => solve [eauto with frame]
  end.
Ltac frame := repeat frame_step.

(** *** The source repository is written by [registerSource] alone *)

Lemma releaseAll_repo mounts : preserves repo (releaseAll mounts).
Proof. induction mounts; simpl; frame. Qed.
#[local] Hint Resolve releaseAll_repo : frame.

Lemma chooseLoop_repo ws inputs chosen ms ts :
  preserves repo (chooseLoop ws inputs chosen ms ts).
Proof. revert chosen ms ts. induction ws; intros; simpl; frame. Qed.
#[local] Hint Resolve chooseLoop_repo : frame.

Lemma createOutputVolumes_repo w outputs ms :
  preserves repo (createOutputVolumes w outputs ms).
Proof. revert ms. induction outputs; intros; simpl; frame. Qed.
#[local] Hint Resolve createOutputVolumes_repo : frame.

Lemma getContainerImage_repo w ir : preserves repo (getContainerImage w ir).
Proof. unfold getContainerImage. frame. Qed.
#[local] Hint Resolve getContainerImage_repo : frame.

Lemma createContainer_repo fuel ws config :
  preserves repo (createContainer fuel ws config).
Proof.
  revert ws. induction fuel; intros; simpl; [frame|].
  unfold chooseWorkerWithMostVolumes. frame.
Qed.
#[local] Hint Resolve createContainer_repo : frame.

Lemma streamInputs_repo pairs : preserves repo (streamInputs pairs).
Proof. induction pairs; simpl; frame. Qed.

Lemma createContainerDir_repo dir : preserves repo (createContainerDir dir).
Proof. unfold createContainerDir. frame. Qed.
#[local] Hint Resolve streamInputs_repo createContainerDir_repo : frame.

Lemma setupOutputs_repo outputs : preserves repo (setupOutputs outputs).
Proof. induction outputs; simpl; frame. Qed.
#[local] Hint Resolve setupOutputs_repo : frame.

Lemma SetProperty_repo name value : preserves repo (SetProperty name value).
Proof. unfold SetProperty. frame. Qed.
#[local] Hint Resolve SetProperty_repo : frame.

Lemma newSession_repo config : preserves repo (newSession config).
Proof. unfold newSession, ensureBuildDirExists. frame. Qed.

(** ** Worker selection *)

(** How many of the inputs have a volume on [w]: the length of the
    [inputMounts] that [inputsOn] computes. *)
Definition inputMountCount (r : gmap string ArtifactSource)
    (inputs : list TaskInputConfig) (w : Worker) : nat :=
  match inputsOnLoop r inputs w [] [] [] with
  | Ok (mounts, _) => length mounts
  | Err _ => 0
  end.

Lemma releaseAll_Ok mounts st :
  exists st1, releaseAll mounts st = (Ok tt, st1) /\ repo st1 = repo st.
Proof.
  revert st. induction mounts as [|m ms IH]; intros st; simpl.
  - eauto.
  - destruct (IH (with_event (EvVolumeRelease (Handle (mount_Volume m))) st))
      as (st1 & E & Hr).
    exists st1. split; [|exact Hr].
    rewrite bind_unfold. exact E.
Qed.

Lemma chooseLoop_spec inputs ws :
  forall chosen ms ts st,
    (forall w, w ∈ ws ->
       exists m t, inputsOnLoop (repo st) inputs w [] [] [] = Ok (m, t)) ->
    exists st', repo st' = repo st /\
      ((chooseLoop ws inputs chosen ms ts st = (Ok (chosen, ms, ts), st') /\
        forall w, w ∈ ws ->
          (inputMountCount (repo st) inputs w < length ms)%nat)
       \/
       (exists pre w post m t,
          ws = (pre ++ w :: post)%list /\
          chooseLoop ws inputs chosen ms ts st = (Ok (Some w, m, t), st') /\
          inputsOnLoop (repo st) inputs w [] [] [] = Ok (m, t) /\
          (length ms <= length m)%nat /\
          (forall w', w' ∈ pre ->
             (inputMountCount (repo st) inputs w' <= length m)%nat) /\
          (forall w', w' ∈ post ->
             (inputMountCount (repo st) inputs w' < length m)%nat))).
Proof.
  induction ws as [|w0 ws IH]; intros chosen ms ts st Hall.
  - exists st. split; [reflexivity|]. left. split; [reflexivity|].
    intros w Hw. inversion Hw.
  - destruct (Hall w0) as (m0 & t0 & E0); [left|].
    assert (Hc0 : inputMountCount (repo st) inputs w0 = length m0).
    { unfold inputMountCount. now rewrite E0. }
    assert (Estep : chooseLoop (w0 :: ws) inputs chosen ms ts st =
                    if (length ms <=? length m0)%nat
                    then (releaseAll ms ≫= λ _,
                          chooseLoop ws inputs (Some w0) m0 t0) st
                    else (releaseAll m0 ≫= λ _,
                          chooseLoop ws inputs chosen ms ts) st).
    { simpl chooseLoop. rewrite bind_unfold. unfold inputsOn at 1.
      rewrite E0. destruct (_ <=? _)%nat; reflexivity. }
    rewrite Estep. clear Estep.
    destruct (length ms <=? length m0)%nat eqn:Hle.
    + apply Nat.leb_le in Hle.
      destruct (releaseAll_Ok ms st) as (st1 & E1 & Hr1).
      destruct (IH (Some w0) m0 t0 st1) as (st' & Hr' & Hcase).
      { intros w Hw. rewrite Hr1. apply Hall. now right. }
      rewrite Hr1 in Hcase. rewrite (bind_Ok _ _ _ _ _ E1).
      exists st'. split; [congruence|]. right.
      destruct Hcase as [(E & Hlt) | (pre & w & post & m & t & -> & E & Ew & Hlen & Hpre & Hpost)].
      * exists [], w0, ws, m0, t0.
        repeat apply conj; try assumption; try reflexivity.
        intros w' Hw'. inversion Hw'.
      * exists (w0 :: pre), w, post, m, t.
        repeat apply conj; try assumption; try reflexivity.
        -- lia.
        -- intros w' Hw'. apply elem_of_cons in Hw' as [->|Hw']; [lia|auto].
    + apply Nat.leb_gt in Hle.
      destruct (releaseAll_Ok m0 st) as (st1 & E1 & Hr1).
      destruct (IH chosen ms ts st1) as (st' & Hr' & Hcase).
      { intros w Hw. rewrite Hr1. apply Hall. now right. }
      rewrite Hr1 in Hcase. rewrite (bind_Ok _ _ _ _ _ E1).
      exists st'. split; [congruence|].
      destruct Hcase as [(E & Hlt) | (pre & w & post & m & t & -> & E & Ew & Hlen & Hpre & Hpost)].
      * left. split; [assumption|].
        intros w Hw. apply elem_of_cons in Hw as [->|Hw]; [lia|auto].
      * right. exists (w0 :: pre), w, post, m, t.
        repeat apply conj; try assumption; try reflexivity.
        intros w' Hw'. apply elem_of_cons in Hw' as [->|Hw']; [lia|auto].
Qed.

Lemma chooseWorkerWithMostVolumes_Ok (compatibleWorkers : list Worker)
    (inputs : list TaskInputConfig) (st : TaskStep) :
  compatibleWorkers <> [] ->
  (forall w, w ∈ compatibleWorkers ->
     exists m t, inputsOnLoop (repo st) inputs w [] [] [] = Ok (m, t)) ->
  exists w ms ts st',
    chooseWorkerWithMostVolumes compatibleWorkers inputs st =
    (Ok (Some w, ms, ts), st').
Proof.
  intros Hne Hall.
  destruct (chooseLoop_spec inputs compatibleWorkers None [] [] st Hall)
    as (st' & _ & [(_ & Hlt) | (pre & w & post & m & t & _ & E & _)]).
  - destruct compatibleWorkers as [|w ws]; [congruence|].
    specialize (Hlt w (list_elem_of_here _ _)). simpl in Hlt. lia.
  - eauto.
Qed.

(** C1 (as the code has it).  On a non-empty list of compatible workers
    on each of which the inputs resolve, [chooseWorkerWithMostVolumes]
    returns a worker of the list together with its own input mounts; no
    worker of the list has more input mounts, and every worker that comes
    after the chosen one in pool order has strictly fewer: among workers
    tied for the most volumes the last one in pool order is chosen. *)
Theorem chooseWorkerWithMostVolumes_last_maximum
    (compatibleWorkers : list Worker) (inputs : list TaskInputConfig)
    (st : TaskStep) :
  compatibleWorkers <> [] ->
  (forall w, w ∈ compatibleWorkers ->
     exists m t, inputsOnLoop (repo st) inputs w [] [] [] = Ok (m, t)) ->
  exists pre chosenWorker post inputMounts inputsToStream st',
    compatibleWorkers = (pre ++ chosenWorker :: post)%list /\
    chooseWorkerWithMostVolumes compatibleWorkers inputs st =
      (Ok (Some chosenWorker, inputMounts, inputsToStream), st') /\
    inputsOnLoop (repo st) inputs chosenWorker [] [] [] =
      Ok (inputMounts, inputsToStream) /\
    (forall w, w ∈ compatibleWorkers ->
       (inputMountCount (repo st) inputs w
        <= inputMountCount (repo st) inputs chosenWorker)%nat) /\
    (forall w, w ∈ post ->
       (inputMountCount (repo st) inputs w
        < inputMountCount (repo st) inputs chosenWorker)%nat).
Proof.
  intros Hne Hall.
  destruct (chooseLoop_spec inputs compatibleWorkers None [] [] st Hall)
    as (st' & _ & [(_ & Hlt) | (pre & w & post & m & t & Hws & E & Ew & _ & Hpre & Hpost)]).
  - destruct compatibleWorkers as [|w ws]; [congruence|].
    specialize (Hlt w (list_elem_of_here _ _)). simpl in Hlt. lia.
  - assert (Hc : inputMountCount (repo st) inputs w = length m).
    { unfold inputMountCount. now rewrite Ew. }
    exists pre, w, post, m, t, st'. rewrite Hc.
    repeat apply conj; try assumption; try reflexivity.
    intros w' Hw'. rewrite Hws in Hw'.
    apply elem_of_app in Hw' as [Hw'|Hw']; [auto|].
    apply elem_of_cons in Hw' as [->|Hw']; [lia|].
    specialize (Hpost w' Hw'). lia.
Qed.

(** ** Registering the outputs *)

(** What [registerSource] does to the repository when the step's
    container is [c]. *)
Definition registered (config : TaskConfig) (c : Container)
    (r : gmap string ArtifactSource) : gmap string ArtifactSource :=
  if (length (Outputs config) =? 0)%nat
  then <[sourceName := TaskStepSource sourceName]> r
  else registerOutputs c (Outputs config) r.

Lemma registerSource_container config st c :
  container st = Some c ->
  registerSource config st = (Ok tt, with_repo (registered config c) st).
Proof.
  intros Hc. unfold registerSource, registered, RegisterSource, modify.
  destruct (length (Outputs config) =? 0)%nat; [reflexivity|].
  now rewrite Hc.
Qed.

Lemma registered_withProperty config c name value r :
  registered config (withProperty c name value) r = registered config c r.
Proof. reflexivity. Qed.

Lemma SetProperty_container name value st c :
  container st = Some c ->
  SetProperty name value st =
  match SetPropertyError c name value with
  | Some err => (Err err, with_event (EvSetProperty name value) st)
  | None =>
      (Ok tt, with_container (Some (withProperty c name value))
                (with_event (EvSetProperty name value) st))
  end.
Proof.
  intros Hc. unfold SetProperty. rewrite bind_unfold.
  unfold theContainer. rewrite Hc. rewrite bind_unfold. simpl.
  destruct (SetPropertyError c name value); reflexivity.
Qed.

Lemma SetProperty_Ok_inv name value st st' :
  SetProperty name value st = (Ok tt, st') ->
  exists c, container st = Some c /\
            container st' = Some (withProperty c name value).
Proof.
  destruct (container st) as [c|] eqn:Hc.
  - rewrite (SetProperty_container _ _ _ _ Hc).
    destruct (SetPropertyError c name value); [discriminate|].
    intros [= <-]. eauto.
  - unfold SetProperty. rewrite bind_unfold. unfold theContainer. rewrite Hc.
    discriminate.
Qed.

(** ** Waiting for the process *)

Lemma await_Signalled config st c :
  Select world = Signalled ->
  container st = Some c ->
  await config st =
  (Err ErrInterrupted,
   with_event (EvStop false) (with_repo (registered config c) st)).
Proof.
  intros Hsel Hc. unfold await. rewrite Hsel.
  rewrite (bind_Ok _ _ _ _ _ (registerSource_container config st c Hc)).
  unfold Stop. rewrite !bind_unfold. unfold theContainer. simpl. rewrite Hc.
  reflexivity.
Qed.

Lemma await_Exited config st c status :
  Select world = Exited status ->
  container st = Some c ->
  await config st =
  let st1 := with_event (EvSetProperty taskExitStatusPropertyName (Sprintf_d status))
               (with_exitStatus status (with_repo (registered config c) st)) in
  match SetPropertyError c taskExitStatusPropertyName (Sprintf_d status) with
  | Some err => (Err err, st1)
  | None =>
      (Ok tt,
       with_event (EvFinished status)
         (with_container
            (Some (withProperty c taskExitStatusPropertyName (Sprintf_d status)))
            st1))
  end.
Proof.
  intros Hsel Hc. unfold await. rewrite Hsel.
  rewrite (bind_Ok _ _ _ _ _ (registerSource_container config st c Hc)).
  rewrite bind_modify, bind_unfold.
  rewrite (SetProperty_container _ _ _ c) by exact Hc.
  destruct (SetPropertyError c _ _); reflexivity.
Qed.

(** ** Reaching the wait *)

Lemma recover_false_container config c st st1 :
  recover config c st = (Ok false, st1) ->
  container st1 = Some c /\ repo st1 = repo st.
Proof.
  unfold recover. rewrite bind_modify.
  destruct (Property c taskExitStatusPropertyName) as [prop|e].
  - destruct (Sscanf_d prop) as [n|msg]; [|discriminate].
    rewrite bind_modify, bind_unfold.
    destruct (registerSource config _) as [[[]|e] st2]; discriminate.
  - destruct (Property c taskProcessPropertyName) as [pid|e']; [|discriminate].
    rewrite bind_emit, bind_unfold. unfold lift.
    destruct (Attach c pid) as [p|e'']; [|discriminate].
    rewrite bind_modify.
    intros [= <-]. split; reflexivity.
Qed.

Lemma newSession_container config st st1 :
  newSession config st = (Ok tt, st1) ->
  (exists c, container st1 = Some c) /\ repo st1 = repo st.
Proof.
  intros E. split.
  - unfold newSession in E.
    repeat (apply bind_Ok_inv in E as (? & ? & _ & E);
            try match type of E with
                | (let '(_, _) := ?x in _) _ = _ => destruct x
                end).
    destruct (SetPropertyError _ _ _); [discriminate|].
    injection E as <-. simpl. eauto.
  - pose proof (newSession_repo config st) as Hr. now rewrite E in Hr.
Qed.

Lemma prepare_false_container config st st1 :
  prepare config st = (Ok false, st1) ->
  (exists c, container st1 = Some c) /\ repo st1 = repo st.
Proof.
  unfold prepare. intros E.
  assert (Hnew : (newSession config ≫= λ _, mret false) st = (Ok false, st1) ->
                 (exists c, container st1 = Some c) /\ repo st1 = repo st).
  { intros E'. apply bind_Ok_inv in E' as ([] & st2 & E1 & E2).
    injection E2 as <-. now apply newSession_container in E1. }
  destruct (FindContainerForIdentifier world) as [[c|]|e]; auto.
  apply recover_false_container in E as [Hc Hr]. eauto.
Qed.

Lemma Run_prepared config st completed st1 :
  FetchConfig world = Ok config ->
  prepare config (with_env (envForParams (Params config)) st)
    = (Ok completed, st1) ->
  Run st = if completed then (Ok tt, st1)
           else await config (with_event EvReadyClosed st1).
Proof.
  intros Hcfg Hprep. unfold Run. rewrite Hcfg.
  rewrite bind_unfold. unfold lift. rewrite bind_modify.
  rewrite (bind_Ok _ _ _ _ _ Hprep).
  destruct completed; reflexivity.
Qed.

(** ** Cancellation and exit *)

(** C6.  When the step has reached the wait and the process exits with
    status [E], [Run] registers the outputs and sets the container
    property [concourse:exit-status] to the decimal string of [E]; it
    returns success exactly when that call succeeds, after which the
    container carries the property, the delegate has been told, and
    [Result] reports [Success] as [E = 0] and [ExitStatus] as [E]. *)
Theorem Run_records_exit_status (config : TaskConfig) (st st1 : TaskStep) (E : Z) :
  FetchConfig world = Ok config ->
  prepare config (with_env (envForParams (Params config)) st) = (Ok false, st1) ->
  Select world = Exited E ->
  exists c st2,
    container st1 = Some c /\
    Result st2 SuccessPointer = (Some (Success (E =? 0)), true) /\
    Result st2 ExitStatusPointer = (Some (ExitStatus E), true) /\
    repo st2 = registered config c (repo st1) /\
    match SetPropertyError c taskExitStatusPropertyName (Sprintf_d E) with
    | None =>
        Run st = (Ok tt, st2) /\
        container st2 =
          Some (withProperty c taskExitStatusPropertyName (Sprintf_d E)) /\
        Property (withProperty c taskExitStatusPropertyName (Sprintf_d E))
          taskExitStatusPropertyName = Ok (Sprintf_d E) /\
        events st2 =
          (events st1 ++
           [EvReadyClosed;
            EvSetProperty taskExitStatusPropertyName (Sprintf_d E);
            EvFinished E])%list
    | Some err => Run st = (Err err, st2)
    end.
Proof.
  intros Hcfg Hprep Hsel.
  destruct (prepare_false_container _ _ _ Hprep) as [(c & Hc) _].
  exists c.
  rewrite (Run_prepared _ _ _ _ Hcfg Hprep).
  rewrite (await_Exited config _ c E Hsel) by exact Hc.
  cbv zeta.
  set (sta := with_event
                (EvSetProperty taskExitStatusPropertyName (Sprintf_d E))
                (with_exitStatus E
                   (with_repo (registered config c)
                      (with_event EvReadyClosed st1)))).
  destruct (SetPropertyError c taskExitStatusPropertyName (Sprintf_d E)).
  - exists sta. split; [exact Hc|].
    repeat apply conj; reflexivity.
  - exists (with_event (EvFinished E)
              (with_container
                 (Some (withProperty c taskExitStatusPropertyName (Sprintf_d E)))
                 sta)).
    split; [exact Hc|].
    repeat apply conj; try reflexivity.
    + unfold Property, withProperty. simpl. now rewrite lookup_insert_eq.
    + simpl. rewrite <- !app_assoc. reflexivity.
Qed.

(** C10.  When the config declares no outputs, [registerSource] registers
    the step itself under the step's source name, and that source never
    reports a volume: [VolumeOn] is [(nil, false, nil)] on every worker,
    so [inputsOn] puts an input of that name among the inputs to stream
    and never among the mounts. *)
Theorem TaskStep_source_has_no_volume (config : TaskConfig) (st : TaskStep) :
  Outputs config = [] ->
  exists st' src,
    registerSource config st = (Ok tt, st') /\
    repo st' !! sourceName = Some src /\
    (forall w, VolumeOn src w = Ok None) /\
    (forall w input,
       input_Name input = sourceName ->
       inputsOnLoop (repo st') [input] w [] [] [] =
       Ok ([], [{| pair_input := input; pair_source := src |}])).
Proof.
  intros Hout. unfold registerSource. rewrite Hout. simpl.
  eexists _, (TaskStepSource sourceName).
  split; [reflexivity|]. simpl.
  split; [apply lookup_insert_eq|].
  split; [reflexivity|].
  intros w input ->. simpl. rewrite lookup_insert_eq. reflexivity.
Qed.

(** ** The recursion of [createContainer] ends *)

Lemma chooseLoop_chosen inputs ws :
  forall chosen ms ts st chosen' ms' ts' st',
    chooseLoop ws inputs chosen ms ts st = (Ok (chosen', ms', ts'), st') ->
    chosen' = chosen \/ exists w, chosen' = Some w /\ w ∈ ws.
Proof.
  induction ws as [|w0 ws IH]; intros chosen ms ts st chosen' ms' ts' st' E.
  - injection E as <- _ _ _. now left.
  - simpl in E. apply bind_Ok_inv in E as ([m0 t0] & st1 & _ & E).
    destruct (length ms <=? length m0)%nat;
      apply bind_Ok_inv in E as ([] & st2 & _ & E);
      apply IH in E as [-> | (w & -> & Hw)].
    + right. exists w0. split; [reflexivity | left].
    + right. exists w. split; [reflexivity | now right].
    + now left.
    + right. exists w. split; [reflexivity | now right].
Qed.

Lemma length_filter_ne (w : Worker) (ws : list Worker) :
  w ∈ ws -> (length (filter (fun worker => worker ≠ w) ws) < length ws)%nat.
Proof.
  induction 1 as [w ws | w w' ws _ IH].
  - rewrite filter_cons_False by (intros Hne; now apply Hne).
    pose proof (length_filter (fun worker => worker ≠ w) ws). simpl. lia.
  - destruct (decide (w' ≠ w)).
    + rewrite filter_cons_True by assumption. simpl. lia.
    + rewrite filter_cons_False by assumption. simpl. lia.
Qed.

(** Any fuel above the number of workers gives the same result: the
    fuel with which [Run] calls [createContainer] never runs out. *)
Lemma createContainer_fuel_enough config fuel1 :
  forall fuel2 ws st,
    (length ws < fuel1)%nat -> (length ws < fuel2)%nat ->
    createContainer fuel1 ws config st = createContainer fuel2 ws config st.
Proof.
  induction fuel1 as [|fuel1 IH]; intros fuel2 ws st H1 H2; [lia|].
  destruct fuel2 as [|fuel2]; [lia|].
  simpl. rewrite !bind_unfold. unfold chooseWorkerWithMostVolumes.
  destruct (chooseLoop ws (Inputs config) None [] [] st)
    as [[[[chosen ms] ts]|e] st1] eqn:Echoose; [|reflexivity].
  destruct chosen as [w|]; [|reflexivity].
  apply chooseLoop_chosen in Echoose as [Habs | (w' & [= <-] & Hw)];
    [discriminate|].
  rewrite !bind_unfold.
  destruct (createOutputVolumes w (Outputs config) [] st1)
    as [[oms|e] st2]; [|reflexivity].
  rewrite !bind_unfold.
  match goal with
  | |- context [match ?m st2 with _ => _ end] =>
      destruct (m st2) as [[[iv im]|e] st3]; [|reflexivity]
  end.
  rewrite !bind_emit.
  destruct (CreateContainer world w _) as [c|err]; [reflexivity|].
  destruct (length (filter _ ws) =? 0)%nat; [reflexivity|].
  pose proof (length_filter_ne w ws Hw).
  apply IH; lia.
Qed.

(** ** The image resource *)

Definition isCreateContainer (e : Event) : bool :=
  match e with
  | EvCreateContainer _ _ => true
  | _ => false
  end.

(** The number of [CreateContainer] calls for the task container. *)
Definition createCalls (st : TaskStep) : nat :=
  length (List.filter isCreateContainer (events st)).

Lemma createCalls_event e st :
  isCreateContainer e = false -> createCalls (with_event e st) = createCalls st.
Proof.
  intros He. unfold createCalls. simpl.
  rewrite List.filter_app. simpl. rewrite He. now rewrite app_nil_r.
Qed.

Lemma preserves_emit_other e :
  isCreateContainer e = false -> preserves createCalls (emit e).
Proof. intros He st. now apply createCalls_event. Qed.

Ltac calls_step :=
  match goal with
  | |- preserves _ (emit _) => apply preserves_emit_other; reflexivity
  | |- preserves _ (defer (with_event _) _) =>
      apply preserves_defer;
      [intros ?; apply createCalls_event; reflexivity|]
  | |- _ => frame_step
  end.
Ltac calls := repeat calls_step.

Lemma releaseAll_calls mounts : preserves createCalls (releaseAll mounts).
Proof. induction mounts; simpl; calls. Qed.
#[local] Hint Resolve releaseAll_calls : frame.

Lemma chooseLoop_calls ws inputs chosen ms ts :
  preserves createCalls (chooseLoop ws inputs chosen ms ts).
Proof. revert chosen ms ts. induction ws; intros; simpl; calls. Qed.
#[local] Hint Resolve chooseLoop_calls : frame.

Lemma createOutputVolumes_calls w outputs ms :
  preserves createCalls (createOutputVolumes w outputs ms).
Proof. revert ms. induction outputs; intros; simpl; calls. Qed.
#[local] Hint Resolve createOutputVolumes_calls : frame.

Lemma getContainerImage_calls w ir : preserves createCalls (getContainerImage w ir).
Proof. unfold getContainerImage. calls. Qed.
#[local] Hint Resolve getContainerImage_calls : frame.

Lemma getContainerImage_no_versions w ir st :
  Check world w (image_Source ir) = Ok [] ->
  exists e st',
    getContainerImage w ir st = (Err e, st') /\
    (TrackerInit world w = Ok tt ->
     e = ErrImageUnavailable /\
     events st' =
       (events st ++ [EvTrackerInit w ContainerStageCheck;
                      EvResourceRelease w ContainerStageCheck])%list).
Proof.
  intros Hcheck. unfold getContainerImage.
  rewrite bind_emit, bind_unfold. unfold lift at 1.
  destruct (TrackerInit world w) as [[]|e].
  - unfold defer. rewrite bind_unfold. unfold lift. rewrite Hcheck.
    eexists _, _. split; [reflexivity|].
    intros _. split; [reflexivity|]. simpl. now rewrite <- app_assoc.
  - eexists _, _. split; [reflexivity|]. discriminate.
Qed.

Lemma createContainer_no_versions config ir fuel ws st :
  ImageResource config = Some ir ->
  (forall w, Check world w (image_Source ir) = Ok []) ->
  exists e st',
    createContainer fuel ws config st = (Err e, st') /\
    createCalls st' = createCalls st.
Proof.
  intros Hir Hcheck. destruct fuel as [|fuel]; simpl.
  - eexists _, _. split; reflexivity.
  - rewrite bind_unfold. unfold chooseWorkerWithMostVolumes.
    pose proof (chooseLoop_calls ws (Inputs config) None [] [] st) as H1.
    destruct (chooseLoop ws (Inputs config) None [] [] st)
      as [[[[chosen ms] ts]|e] st1]; simpl in H1;
      [|eexists _, _; split; [reflexivity|exact H1]].
    destruct chosen as [w|];
      [|eexists _, _; split; [reflexivity|exact H1]].
    rewrite bind_unfold.
    pose proof (createOutputVolumes_calls w (Outputs config) [] st1) as H2.
    destruct (createOutputVolumes w (Outputs config) [] st1)
      as [[oms|e] st2]; simpl in H2;
      [|eexists _, _; split; [reflexivity|congruence]].
    rewrite Hir. rewrite !bind_unfold.
    pose proof (getContainerImage_calls w ir st2) as H3.
    destruct (getContainerImage_no_versions w ir st2 (Hcheck w))
      as (e & st3 & E3 & _).
    rewrite E3 in *. simpl in H3.
    eexists _, _. split; [reflexivity|congruence].
Qed.

Lemma createOutputVolumes_Ok w outputs :
  (forall bc n, VolumeManager world w = Some bc ->
                exists v, CreateVolume bc n = Ok v) ->
  forall oms st,
    exists oms' st', createOutputVolumes w outputs oms st = (Ok oms', st').
Proof.
  intros Hvol. induction outputs as [|o outputs IH]; intros oms st; simpl.
  - eauto.
  - destruct (VolumeManager world w) as [bc|] eqn:Hvm; [|eauto].
    rewrite bind_unfold. simpl. rewrite bind_emit, bind_modify, bind_unfold.
    destruct (Hvol bc (volumesCreated st) eq_refl) as (v & Hv).
    unfold lift. simpl. rewrite Hv. apply IH.
Qed.

(** C9.  With an image resource whose check returns no versions:
    (a) [getContainerImage] fails with [ErrImageUnavailable] once the
    check session is open, having only opened and released that session;
    (b) a step that has no container yet never calls [CreateContainer]
    for the task container and [Run] returns an error;
    (c) when worker selection, the creation of the output volumes and the
    check session succeed, that error is [ErrImageUnavailable]. *)
Theorem Run_image_unavailable (config : TaskConfig) (ir : ImageResourceConfig) :
  FetchConfig world = Ok config ->
  ImageResource config = Some ir ->
  (forall w, Check world w (image_Source ir) = Ok []) ->
  (forall c, FindContainerForIdentifier world <> Ok (Some c)) ->
  (forall w st,
     TrackerInit world w = Ok tt ->
     exists st',
       getContainerImage w ir st = (Err ErrImageUnavailable, st') /\
       events st' =
         (events st ++ [EvTrackerInit w ContainerStageCheck;
                        EvResourceRelease w ContainerStageCheck])%list) /\
  (forall st,
     exists e st',
       Run st = (Err e, st') /\ createCalls st' = createCalls st) /\
  (forall st ws,
     AllSatisfying world (workerSpecFor config) = Ok ws ->
     ws <> [] ->
     (forall w, w ∈ ws ->
        exists m t, inputsOnLoop (repo st) (Inputs config) w [] [] [] = Ok (m, t)) ->
     (forall w bc n, VolumeManager world w = Some bc ->
                     exists v, CreateVolume bc n = Ok v) ->
     (forall w, TrackerInit world w = Ok tt) ->
     exists st', Run st = (Err ErrImageUnavailable, st')).
Proof.
  intros Hcfg Hir Hcheck Hfind.
  assert (Hrun : forall st,
            Run st =
            (newSession config ≫= λ _, mret false ≫= λ completed : bool,
               if completed then mret tt
               else emit EvReadyClosed ≫= λ _, await config)
              (with_env (envForParams (Params config)) st)).
  { intros st. unfold Run. rewrite Hcfg. rewrite bind_unfold. unfold lift.
    rewrite bind_modify. unfold prepare.
    destruct (FindContainerForIdentifier world) as [[c|]|e] eqn:Hf.
    - now destruct (Hfind c).
    - rewrite !bind_unfold.
      destruct (newSession config _) as [[[]|] ?]; reflexivity.
    - rewrite !bind_unfold.
      destruct (newSession config _) as [[[]|] ?]; reflexivity. }
  repeat apply conj.
  - intros w st Hinit.
    destruct (getContainerImage_no_versions w ir st (Hcheck w))
      as (e & st' & E & Hrest).
    destruct (Hrest Hinit) as [-> Hev]. eauto.
  - intros st. rewrite Hrun. set (st0 := with_env _ st).
    set (sta := with_event EvInitializing (with_container None st0)).
    assert (H0 : createCalls sta = createCalls st).
    { unfold sta. now rewrite createCalls_event. }
    rewrite bind_unfold. unfold newSession.
    rewrite bind_modify, bind_emit, bind_unfold. unfold lift at 1.
    fold sta.
    destruct (AllSatisfying world _) as [ws|e];
      [|eexists _, _; split; [reflexivity|exact H0]].
    rewrite bind_unfold.
    destruct (createContainer_no_versions config ir (S (length ws)) ws
                sta Hir Hcheck)
      as (e & st' & E & Hcalls).
    rewrite E. eexists _, _. split; [reflexivity|].
    rewrite Hcalls. exact H0.
  - intros st ws Hws Hne Hinputs Hvol Hinit. rewrite Hrun.
    set (st0 := with_env _ st).
    rewrite bind_unfold. unfold newSession.
    rewrite bind_modify, bind_emit, bind_unfold. unfold lift at 1.
    cbv zeta. rewrite Hws. rewrite bind_unfold.
    set (sta := with_event EvInitializing (with_container None st0)).
    destruct (chooseWorkerWithMostVolumes_Ok ws (Inputs config) sta Hne)
      as (w & ms & ts & stb & Echoose); [exact Hinputs|].
    simpl createContainer. rewrite (bind_Ok _ _ _ _ _ Echoose).
    destruct (createOutputVolumes_Ok w (Outputs config) (Hvol w) [] stb)
      as (oms & stc & Eout).
    rewrite (bind_Ok _ _ _ _ _ Eout). rewrite Hir.
    destruct (getContainerImage_no_versions w ir stc (Hcheck w))
      as (e & std & E & Hrest).
    destruct (Hrest (Hinit w)) as [-> _].
    rewrite !bind_unfold. rewrite E. eauto.
Qed.

(** ** Missing inputs *)

(** The declared inputs that have no source in the repository, in the
    order of their declaration. *)
Definition missingNames (r : gmap string ArtifactSource)
    (inputs : list TaskInputConfig) : list string :=
  omap (fun input =>
          match r !! input_Name input with
          | None => Some (input_Name input)
          | Some _ => None
          end) inputs.

Lemma inputsOnLoop_missing r w inputs :
  (forall input src,
     input ∈ inputs -> r !! input_Name input = Some src ->
     exists v, VolumeOn src w = Ok v) ->
  forall ms ps miss,
    (miss ++ missingNames r inputs)%list <> [] ->
    inputsOnLoop r inputs w ms ps miss =
    Err (MissingInputsError (miss ++ missingNames r inputs)%list).
Proof.
  induction inputs as [|input inputs IH]; intros Hvol ms ps miss Hne; simpl.
  - unfold missingNames in *. simpl in *. rewrite app_nil_r in *.
    destruct miss; [congruence|]. reflexivity.
  - assert (Hvol' : forall input' src,
              input' ∈ inputs -> r !! input_Name input' = Some src ->
              exists v, VolumeOn src w = Ok v).
    { intros i src Hi. apply Hvol. now right. }
    unfold missingNames in *. simpl in *.
    destruct (r !! input_Name input) as [src|] eqn:Hsrc; simpl in *.
    + destruct (Hvol input src (list_elem_of_here _ _) Hsrc) as (v & Hv).
      rewrite Hv. destruct v; now apply IH.
    + rewrite (IH Hvol' ms ps (miss ++ [input_Name input])%list);
        rewrite <- app_assoc; simpl; [reflexivity|exact Hne].
Qed.

(** C8 (as the code has it).  A step that has no container yet, whose
    pool returns at least one compatible worker and whose registered
    inputs all answer [VolumeOn] for the first of these workers without
    an error: when some declared input has no source in the repository,
    [Run] fails with [MissingInputsError] listing exactly the names of the
    missing inputs, in declaration order, before any container is
    created. *)
Theorem Run_missing_inputs (config : TaskConfig) (st : TaskStep)
    (w : Worker) (ws : list Worker) :
  FetchConfig world = Ok config ->
  (forall c, FindContainerForIdentifier world <> Ok (Some c)) ->
  AllSatisfying world (workerSpecFor config) = Ok (w :: ws) ->
  (forall input src,
     input ∈ Inputs config -> repo st !! input_Name input = Some src ->
     exists v, VolumeOn src w = Ok v) ->
  missingNames (repo st) (Inputs config) <> [] ->
  exists st',
    Run st = (Err (MissingInputsError (missingNames (repo st) (Inputs config))), st')
    /\ events st' = (events st ++ [EvInitializing])%list
    /\ repo st' = repo st.
Proof.
  intros Hcfg Hfind Hws Hvol Hmiss.
  eexists. split.
  - unfold Run. rewrite Hcfg. rewrite bind_unfold. unfold lift.
    rewrite bind_modify. unfold prepare.
    assert (Hnew : forall st0, repo st0 = repo st ->
              newSession config st0 =
              (Err (MissingInputsError (missingNames (repo st) (Inputs config))),
               with_event EvInitializing (with_container None st0))).
    { intros st0 Hr. unfold newSession.
      rewrite bind_modify, bind_emit, bind_unfold. unfold lift at 1.
      cbv zeta. rewrite Hws. rewrite bind_unfold.
      simpl createContainer. unfold chooseWorkerWithMostVolumes. simpl chooseLoop.
      rewrite !bind_unfold. unfold inputsOn. simpl repo. rewrite Hr.
      rewrite (inputsOnLoop_missing (repo st) w (Inputs config) Hvol [] [] [])
        by exact Hmiss.
      reflexivity. }
    destruct (FindContainerForIdentifier world) as [[c|]|e] eqn:Hf.
    + now destruct (Hfind c).
    + rewrite !bind_unfold. rewrite Hnew by reflexivity. reflexivity.
    + rewrite !bind_unfold. rewrite Hnew by reflexivity. reflexivity.
  - split; reflexivity.
Qed.

(** ** Registration is idempotent *)

(** An update of the repository that only writes entries, the same ones
    whatever the repository holds. *)
Definition overlay (g : gmap string ArtifactSource -> gmap string ArtifactSource)
  : Prop :=
  exists m, forall r, g r = m ∪ r.

Lemma overlay_id : overlay (fun r => r).
Proof. exists ∅. intros r. now rewrite (left_id_L ∅ (∪)). Qed.

Lemma overlay_insert k v : overlay (fun r => <[k := v]> r).
Proof. exists {[k := v]}. intros r. apply insert_union_singleton_l. Qed.

Lemma overlay_fold {X} (f : gmap string ArtifactSource -> X -> gmap string ArtifactSource)
    (l : list X) :
  (forall x, overlay (fun r => f r x)) ->
  overlay (fun r => fold_left f l r).
Proof.
  intros Hf. induction l as [|x l IH]; simpl.
  - apply overlay_id.
  - destruct IH as (m & Hm). destruct (Hf x) as (mx & Hx).
    exists (m ∪ mx). intros r. rewrite Hm, Hx. apply (assoc_L (∪)).
Qed.

Lemma overlay_idem g r : overlay g -> g (g r) = g r.
Proof.
  intros (m & Hm). rewrite !Hm. rewrite (assoc_L (∪)).
  now rewrite (idemp_L (∪) m).
Qed.

Lemma registerMounts_overlay c output mounts :
  overlay (registerMounts c output mounts).
Proof.
  unfold registerMounts. apply overlay_fold. intros mount.
  destruct (String.eqb _ _); [apply overlay_insert | apply overlay_id].
Qed.

Lemma registerOutputs_overlay c outputs : overlay (registerOutputs c outputs).
Proof.
  unfold registerOutputs. apply overlay_fold. intros output.
  destruct (0 <? _)%nat; [apply registerMounts_overlay | apply overlay_insert].
Qed.

Lemma registered_idem config c r :
  registered config c (registered config c r) = registered config c r.
Proof.
  apply overlay_idem. unfold registered.
  destruct (_ =? 0)%nat; [apply overlay_insert | apply registerOutputs_overlay].
Qed.

(** ** Recovery *)





(** ** More on the inputs *)

(** The input has a registered source with a volume on [w]. *)
Definition hasVolumeOn (r : gmap string ArtifactSource) (w : Worker)
    (input : TaskInputConfig) : bool :=
  match r !! input_Name input with
  | Some source =>
      match VolumeOn source w with
      | Ok (Some _) => true
      | _ => false
      end
  | None => false
  end.

Lemma inputsOnLoop_partition r w inputs :
  forall ms ps miss ms' ps',
    inputsOnLoop r inputs w ms ps miss = Ok (ms', ps') ->
    miss = [] /\
    missingNames r inputs = [] /\
    map MountPath ms' =
      (map MountPath ms ++
       map inputDestination (List.filter (hasVolumeOn r w) inputs))%list /\
    map pair_input ps' =
      (map pair_input ps ++
       List.filter (fun input => negb (hasVolumeOn r w input)) inputs)%list /\
    (Forall (fun p => r !! input_Name (pair_input p) = Some (pair_source p)) ps ->
     Forall (fun p => r !! input_Name (pair_input p) = Some (pair_source p)) ps').
Proof.
  induction inputs as [|input inputs IH]; intros ms ps miss ms' ps' E; simpl in E.
  - destruct miss; [|discriminate]. injection E as <- <-.
    simpl. rewrite !app_nil_r. auto.
  - unfold missingNames, hasVolumeOn in *. simpl.
    destruct (r !! input_Name input) as [src|] eqn:Hsrc.
    + destruct (VolumeOn src w) as [[v|]|e]; [| |discriminate].
      * apply IH in E as (-> & Hm & Hms & Hps & Hall).
        rewrite Hms, Hps, map_app. simpl. rewrite <- app_assoc. auto.
      * apply IH in E as (-> & Hm & Hms & Hps & Hall).
        rewrite Hms, Hps, map_app. simpl. rewrite <- app_assoc.
        repeat apply conj; try reflexivity; try assumption.
        intros Hps0. apply Hall. apply Forall_app. split; [exact Hps0|].
        constructor; [exact Hsrc | constructor].
    + apply IH in E as (Hmiss & _). destruct miss; discriminate.
Qed.

(** X4.  When [inputsOn] succeeds, every declared input has a source in
    the repository, and the inputs are split in two without loss and in
    declaration order: those with a volume on the worker become mounts at
    their input destination, the others become the inputs to stream,
    paired with their source. *)
Theorem inputsOn_partitions_inputs (r : gmap string ArtifactSource)
    (inputs : list TaskInputConfig) (w : Worker)
    (mounts : list VolumeMount) (inputPairs : list inputPair) :
  inputsOnLoop r inputs w [] [] [] = Ok (mounts, inputPairs) ->
  missingNames r inputs = [] /\
  map MountPath mounts =
    map inputDestination (List.filter (hasVolumeOn r w) inputs) /\
  map pair_input inputPairs =
    List.filter (fun input => negb (hasVolumeOn r w input)) inputs /\
  Forall (fun p => r !! input_Name (pair_input p) = Some (pair_source p))
         inputPairs /\
  (length mounts + length inputPairs = length inputs)%nat.
Proof.
  intros E. apply inputsOnLoop_partition in E as (_ & Hm & Hms & Hps & Hall).
  simpl in *. repeat apply conj; try assumption.
  - apply Hall. constructor.
  - rewrite <- (length_map MountPath mounts), <- (length_map pair_input inputPairs).
    rewrite Hms, Hps, length_map.
    clear. induction inputs as [|i inputs IH]; simpl; [reflexivity|].
    destruct (hasVolumeOn r w i); simpl; lia.
Qed.

(** ** More on the registration of outputs *)

Lemma overlay_is_Some g r k :
  overlay g -> is_Some (r !! k) -> is_Some (g r !! k).
Proof.
  intros (m & Hm) Hr. rewrite Hm. apply lookup_union_is_Some. now right.
Qed.

Lemma fold_left_overlay_is_Some {X}
    (f : gmap string ArtifactSource -> X -> gmap string ArtifactSource)
    (l : list X) r k :
  (forall x, overlay (fun r => f r x)) ->
  is_Some (r !! k) -> is_Some (fold_left f l r !! k).
Proof.
  intros Hf. apply (overlay_is_Some (fun r => fold_left f l r)).
  now apply overlay_fold.
Qed.

Lemma registerMounts_matching c output mounts r :
  (exists mount, mount ∈ mounts /\
                 MountPath mount = artifactsPath output artifactsRoot) ->
  is_Some (registerMounts c output mounts r !! output_Name output).
Proof.
  intros (mount & Hin & Hpath). unfold registerMounts. revert r.
  induction Hin as [mount mounts | mount mount' mounts _ IH]; intros r; simpl.
  - rewrite Hpath, String.eqb_refl.
    apply fold_left_overlay_is_Some.
    + intros x. destruct (String.eqb _ _); [apply overlay_insert | apply overlay_id].
    + rewrite lookup_insert_eq. eauto.
  - apply IH. exact Hpath.
Qed.

Lemma registerOutputs_step_overlay c output :
  overlay (fun r =>
             if (0 <? length (VolumeMounts c))%nat
             then registerMounts c output (VolumeMounts c) r
             else <[output_Name output :=
                      containerSource artifactsRoot (container_Handle c) output ""]> r).
Proof.
  destruct (0 <? _)%nat; [apply registerMounts_overlay | apply overlay_insert].
Qed.

Lemma registerOutputs_is_Some c outputs r :
  (VolumeMounts c = [] \/
   forall output, output ∈ outputs ->
     exists mount, mount ∈ VolumeMounts c /\
                   MountPath mount = artifactsPath output artifactsRoot) ->
  forall output, output ∈ outputs ->
    is_Some (registerOutputs c outputs r !! output_Name output).
Proof.
  unfold registerOutputs. revert r.
  induction outputs as [|o outs IH]; intros r Hmounts output Hin.
  - inversion Hin.
  - simpl. apply elem_of_cons in Hin as [-> | Hin].
    + apply fold_left_overlay_is_Some; [apply registerOutputs_step_overlay|].
      destruct Hmounts as [Hnil | Hall].
      * rewrite Hnil. simpl. rewrite lookup_insert_eq. eauto.
      * destruct (Hall o (list_elem_of_here _ _)) as (mount & Hm & Hp).
        replace (0 <? length (VolumeMounts c))%nat with true; cycle 1.
        { symmetry. apply Nat.ltb_lt. destruct (VolumeMounts c); [inversion Hm|simpl; lia]. }
        apply registerMounts_matching. eauto.
    + apply IH; [|exact Hin].
      destruct Hmounts as [Hnil | Hall]; [now left | right].
      intros o' Ho'. apply Hall. now right.
Qed.

(** X5.  When the container reports no volume mounts at all, or reports
    a mount at the path of every declared output, [registerSource] leaves
    a source registered under the name of every declared output. *)
Theorem registerSource_registers_outputs (config : TaskConfig) (st : TaskStep)
    (c : Container) :
  container st = Some c ->
  Outputs config <> [] ->
  (VolumeMounts c = [] \/
   forall output, output ∈ Outputs config ->
     exists mount, mount ∈ VolumeMounts c /\
                   MountPath mount = artifactsPath output artifactsRoot) ->
  exists st',
    registerSource config st = (Ok tt, st') /\
    forall output, output ∈ Outputs config ->
      is_Some (repo st' !! output_Name output).
Proof.
  intros Hc Hne Hmounts.
  rewrite (registerSource_container config st c Hc).
  eexists. split; [reflexivity|]. simpl.
  assert (Hlen : (length (Outputs config) =? 0)%nat = false).
  { destruct (Outputs config); [congruence | reflexivity]. }
  unfold registered. rewrite Hlen.
  now apply registerOutputs_is_Some.
Qed.

Lemma registerMounts_other c output mounts r name :
  output_Name output <> name ->
  registerMounts c output mounts r !! name = r !! name.
Proof.
  intros Hne. unfold registerMounts. revert r.
  induction mounts as [|mount mounts IH]; intros r; simpl; [reflexivity|].
  rewrite IH. destruct (String.eqb _ _); [|reflexivity].
  now rewrite lookup_insert_ne.
Qed.

Lemma registerOutputs_other c outputs r name :
  (forall output, output ∈ outputs -> output_Name output <> name) ->
  registerOutputs c outputs r !! name = r !! name.
Proof.
  unfold registerOutputs. revert r.
  induction outputs as [|o outs IH]; intros r Hne; simpl; [reflexivity|].
  rewrite IH by (intros o' Ho'; apply Hne; now right).
  pose proof (Hne o (list_elem_of_here _ _)) as Ho.
  destruct (0 <? _)%nat.
  - now apply registerMounts_other.
  - now rewrite lookup_insert_ne.
Qed.

(** X6.  [registerSource] writes only under the names of the declared
    outputs, or under the step's own name when there are none: every
    other entry of the source repository is left as it was, and nothing
    else of the step changes. *)
Theorem registerSource_keeps_other_sources (config : TaskConfig)
    (st st' : TaskStep) (name : string) :
  registerSource config st = (Ok tt, st') ->
  (Outputs config = [] -> name <> sourceName) ->
  (forall output, output ∈ Outputs config -> output_Name output <> name) ->
  repo st' !! name = repo st !! name /\
  container st' = container st /\
  events st' = events st /\
  exitStatus st' = exitStatus st.
Proof.
  unfold registerSource. intros E Hself Hother.
  destruct (Outputs config) as [|o outs] eqn:Hout; simpl in E.
  - injection E as <-. simpl. repeat apply conj; try reflexivity.
    rewrite lookup_insert_ne; [reflexivity|].
    intros Heq. now apply Hself.
  - destruct (container st) as [c|] eqn:Hc; [|discriminate].
    injection E as <-. repeat apply conj; try reflexivity.
    + cbn [repo with_repo]. now apply registerOutputs_other.
    + exact Hc.
Qed.

(** X7.  [registerSource] is re-entrant: once it has returned, calling it
    again (as the recovery of a completed step does after the original
    run) succeeds and changes nothing. *)
Theorem registerSource_again (config : TaskConfig) (st st' : TaskStep) :
  registerSource config st = (Ok tt, st') ->
  registerSource config st' = (Ok tt, st').
Proof.
  intros E.
  destruct (container st) as [c|] eqn:Hc.
  - rewrite (registerSource_container config st c Hc) in E. injection E as <-.
    rewrite (registerSource_container config _ c) by exact Hc.
    f_equal. unfold with_repo. simpl. f_equal. apply registered_idem.
  - unfold registerSource in *.
    destruct (length (Outputs config) =? 0)%nat.
    + injection E as <-. unfold RegisterSource, modify, with_repo. simpl.
      f_equal. f_equal. apply insert_insert_eq.
    + rewrite Hc in E. discriminate.
Qed.

(** ** More on recovery and the wait *)

(** X8.  Re-attach after a restart: when the container of the step is
    found without an exit status but with the id of its process, [Run]
    attaches to that process and waits; it creates no container and
    starts no process.  When the process then exits and the status is
    stored, the calls made are exactly [Attach], the closing of [ready],
    [SetProperty] and [Finished]. *)
Theorem Run_reattaches (config : TaskConfig) (c : Container)
    (processID : string) (p : Process) (st : TaskStep) (E : Z) :
  FetchConfig world = Ok config ->
  FindContainerForIdentifier world = Ok (Some c) ->
  Properties c !! taskExitStatusPropertyName = None ->
  Properties c !! taskProcessPropertyName = Some processID ->
  Attach c processID = Ok p ->
  Select world = Exited E ->
  SetPropertyError c taskExitStatusPropertyName (Sprintf_d E) = None ->
  exists st',
    Run st = (Ok tt, st') /\
    events st' =
      (events st ++
       [EvAttach processID; EvReadyClosed;
        EvSetProperty taskExitStatusPropertyName (Sprintf_d E);
        EvFinished E])%list /\
    process st' = Some p /\
    exitStatus st' = E /\
    repo st' = registered config c (repo st) /\
    container st' =
      Some (withProperty c taskExitStatusPropertyName (Sprintf_d E)).
Proof.
  intros Hcfg Hfind Hexit Hpid Hattach Hsel Hset.
  set (st0 := with_env (envForParams (Params config)) st).
  assert (Hprep : prepare config st0 =
                  (Ok false,
                   with_process (Some p)
                     (with_event (EvAttach processID)
                        (with_container (Some c) st0)))).
  { unfold prepare. rewrite Hfind. unfold recover, Property.
    rewrite bind_modify, Hexit, Hpid, bind_emit, bind_unfold.
    unfold lift. rewrite Hattach. reflexivity. }
  rewrite (Run_prepared config st false _ Hcfg Hprep).
  rewrite (await_Exited config _ c E Hsel) by reflexivity.
  cbv zeta. rewrite Hset.
  eexists. split; [reflexivity|]. simpl.
  rewrite <- !app_assoc. repeat apply conj; reflexivity.
Qed.

(** X9.  A rogue container: when the container of the step is found
    with neither an exit status nor a process id, [Run] returns an error
    at once; it attaches to nothing, creates nothing and registers
    nothing. *)
Theorem Run_rogue_container (config : TaskConfig) (c : Container) (st : TaskStep) :
  FetchConfig world = Ok config ->
  FindContainerForIdentifier world = Ok (Some c) ->
  Properties c !! taskExitStatusPropertyName = None ->
  Properties c !! taskProcessPropertyName = None ->
  exists err st',
    Run st = (Err err, st') /\
    events st' = events st /\
    repo st' = repo st /\
    process st' = process st /\
    exitStatus st' = exitStatus st.
Proof.
  intros Hcfg Hfind Hexit Hpid.
  unfold Run. rewrite Hcfg, bind_unfold. unfold lift.
  rewrite bind_modify, bind_unfold. unfold prepare. rewrite Hfind.
  unfold recover, Property. rewrite bind_modify, Hexit, Hpid.
  eexists _, _. split; [reflexivity|]. repeat apply conj; reflexivity.
Qed.

(** X10.  An exit status property that does not scan as a decimal
    integer makes [Run] fail with the scan error: the step neither
    re-attaches (even when a process id is stored) nor registers any
    output, and its exit status is left as it was. *)
Theorem Run_unreadable_exit_status (config : TaskConfig) (c : Container)
    (prop msg : string) (st : TaskStep) :
  FetchConfig world = Ok config ->
  FindContainerForIdentifier world = Ok (Some c) ->
  Properties c !! taskExitStatusPropertyName = Some prop ->
  Sscanf_d prop = Err msg ->
  exists st',
    Run st = (Err (ErrorString msg), st') /\
    events st' = events st /\
    repo st' = repo st /\
    exitStatus st' = exitStatus st.
Proof.
  intros Hcfg Hfind Hexit Hscan.
  unfold Run. rewrite Hcfg, bind_unfold. unfold lift.
  rewrite bind_modify, bind_unfold. unfold prepare. rewrite Hfind.
  unfold recover, Property. rewrite bind_modify, Hexit, Hscan.
  eexists. split; [reflexivity|]. repeat apply conj; reflexivity.
Qed.

(** X11.  When waiting for the process fails, [Run] returns that error
    after closing [ready] and does nothing more: the outputs are not
    registered, no exit status is stored on the container or in the step,
    and the container is not stopped. *)
Theorem Run_wait_error (config : TaskConfig) (st st1 : TaskStep) (err : error) :
  FetchConfig world = Ok config ->
  prepare config (with_env (envForParams (Params config)) st) = (Ok false, st1) ->
  Select world = WaitFailed err ->
  exists st',
    Run st = (Err err, st') /\
    events st' = (events st1 ++ [EvReadyClosed])%list /\
    repo st' = repo st1 /\
    container st' = container st1 /\
    exitStatus st' = exitStatus st1.
Proof.
  intros Hcfg Hprep Hsel.
  rewrite (Run_prepared config st false st1 Hcfg Hprep).
  unfold await. rewrite Hsel.
  eexists. split; [reflexivity|]. repeat apply conj; reflexivity.
Qed.

(** X12.  The process id is stored before readiness is signalled: a new
    session that succeeds ends with the call that sets
    [concourse:task-process] on the created container to the id of the
    process it has just started, and only then does [Run] close [ready];
    a new session that fails makes [Run] return its error with [ready]
    left open. *)
Theorem Run_stores_process_id_before_ready (config : TaskConfig) (st : TaskStep) :
  FetchConfig world = Ok config ->
  (forall c, FindContainerForIdentifier world <> Ok (Some c)) ->
  match newSession config (with_env (envForParams (Params config)) st) with
  | (Ok _, st1) =>
      Run st = await config (with_event EvReadyClosed st1) /\
      exists c p evs,
        container st1 = Some c /\
        process st1 = Some p /\
        Properties c !! taskProcessPropertyName = Some (ID p) /\
        events st1 =
          (evs ++ [EvRun {| spec_Path := run_Path (config_Run config);
                            spec_Args := run_Args (config_Run config);
                            spec_Env := envForParams (Params config);
                            spec_Dir := artifactsRoot;
                            spec_User := "root" |};
                   EvSetProperty taskProcessPropertyName (ID p)])%list
  | (Err err, st1) => Run st = (Err err, st1)
  end.
Proof.
  intros Hcfg Hfind.
  set (st0 := with_env (envForParams (Params config)) st).
  assert (Hprep : prepare config st0 =
                  (newSession config ≫= λ _, mret false) st0).
  { unfold prepare.
    destruct (FindContainerForIdentifier world) as [[c|]|e] eqn:Hf;
      [now destruct (Hfind c) | reflexivity | reflexivity]. }
  destruct (newSession config st0) as [[[]|err] st1] eqn:Hnew.
  - split.
    + apply (Run_prepared config st false st1 Hcfg).
      fold st0. rewrite Hprep. now rewrite (bind_Ok _ _ _ _ _ Hnew).
    + unfold newSession in Hnew.
      repeat (apply bind_Ok_inv in Hnew as (? & ? & ? & Hnew);
              try match type of Hnew with
                  | (let '(_, _) := ?x in _) _ = _ => destruct x
                  end).
      destruct (SetPropertyError _ _ _); [discriminate|].
      injection Hnew as <-.
      repeat match goal with
             | H : modify _ _ = (Ok _, _) |- _ =>
                 unfold modify in H; injection H as ? ?; subst
             | H : emit _ _ = (Ok _, _) |- _ =>
                 unfold emit, modify in H; injection H as ? ?; subst
             | H : lift _ _ = (Ok _, _) |- _ =>
                 unfold lift in H; injection H as ? ?; subst
             | H : theContainer ?s = (Ok _, _) |- _ =>
                 unfold theContainer in H; destruct (container s);
                 [injection H as ? ?; subst | discriminate]
             end.
      eexists _, _, _. simpl.
      split; [reflexivity|]. split; [reflexivity|].
      split; [apply lookup_insert_eq|].
      rewrite <- app_assoc. reflexivity.
  - unfold Run. rewrite Hcfg, bind_unfold. unfold lift.
    rewrite bind_modify. fold st0.
    rewrite bind_unfold, Hprep, bind_unfold, Hnew. reflexivity.
Qed.

(** ** More on container creation *)

Lemma createCalls_create w spec st :
  createCalls (with_event (EvCreateContainer w spec) st) = S (createCalls st).
Proof.
  unfold createCalls. simpl. rewrite List.filter_app, length_app. simpl. lia.
Qed.

Lemma in_filter_ne (w w' : Worker) (ws : list Worker) :
  w' ∈ filter (fun worker => worker ≠ w) ws -> w' ∈ ws.
Proof. intros Hin. apply list_elem_of_filter in Hin. tauto. Qed.

Lemma createContainer_all_fail config :
  ImageResource config = None ->
  (forall w spec, exists err, CreateContainer world w spec = Err err) ->
  (forall w bc n, VolumeManager world w = Some bc ->
                  exists v, CreateVolume bc n = Ok v) ->
  forall fuel ws st,
    (length ws < fuel)%nat ->
    ws <> [] ->
    (forall w, w ∈ ws ->
       exists m t, inputsOnLoop (repo st) (Inputs config) w [] [] [] = Ok (m, t)) ->
    exists st',
      createContainer fuel ws config st =
        (Err (ErrorString "Failed to create container on all compatible workers"),
         st') /\
      repo st' = repo st /\
      (createCalls st < createCalls st' <= createCalls st + length ws)%nat.
Proof.
  intros Hir Hfail Hvol.
  induction fuel as [|fuel IH]; intros ws st Hfuel Hne Hinputs; [lia|].
  destruct (chooseWorkerWithMostVolumes_Ok ws (Inputs config) st Hne Hinputs)
    as (w & ms & ts & stb & Echoose).
  assert (Hw : w ∈ ws).
  { unfold chooseWorkerWithMostVolumes in Echoose.
    apply chooseLoop_chosen in Echoose as [Habs | (w' & [= <-] & Hw)];
      [discriminate | exact Hw]. }
  pose proof (chooseLoop_repo ws (Inputs config) None [] [] st) as Hrb.
  pose proof (chooseLoop_calls ws (Inputs config) None [] [] st) as Hcb.
  unfold chooseWorkerWithMostVolumes in Echoose.
  rewrite Echoose in Hrb, Hcb. simpl in Hrb, Hcb.
  destruct (createOutputVolumes_Ok w (Outputs config) (Hvol w) [] stb)
    as (oms & stc & Eout).
  pose proof (createOutputVolumes_repo w (Outputs config) [] stb) as Hrc.
  pose proof (createOutputVolumes_calls w (Outputs config) [] stb) as Hcc.
  rewrite Eout in Hrc, Hcc. simpl in Hrc, Hcc.
  simpl createContainer. unfold chooseWorkerWithMostVolumes.
  rewrite (bind_Ok _ _ _ _ _ Echoose), (bind_Ok _ _ _ _ _ Eout), Hir.
  rewrite bind_unfold. simpl. rewrite bind_emit.
  match goal with
  | |- context [CreateContainer world w ?spec] =>
      destruct (Hfail w spec) as (err & ->);
      set (std := with_event (EvCreateContainer w spec) stc)
  end.
  assert (Hcd : createCalls std = S (createCalls st)).
  { unfold std. rewrite createCalls_create. congruence. }
  assert (Hrd : repo std = repo st) by (unfold std; simpl; congruence).
  pose proof (length_filter_ne w ws Hw) as Hlen.
  destruct (length (filter (fun worker => worker ≠ w) ws) =? 0)%nat eqn:Hzero.
  - exists std. split; [reflexivity|]. split; [exact Hrd|].
    rewrite Hcd. destruct ws; [congruence | simpl; lia].
  - apply Nat.eqb_neq in Hzero.
    destruct (IH (filter (fun worker => worker ≠ w) ws) std) as (st' & E & Hr & Hc).
    + lia.
    + intros Hnil. rewrite Hnil in Hzero. now apply Hzero.
    + intros w' Hw'. rewrite Hrd. apply Hinputs. eapply in_filter_ne. exact Hw'.
    + exists st'. split; [exact E|]. split; [congruence|]. lia.
Qed.

(** X13.  For a task without an image resource: when [CreateContainer]
    fails on every worker (whatever the error), the inputs resolve and
    the output volumes can be created, [createContainer] with the fuel
    [Run] gives it tries the workers one after the other, never more
    often than there are compatible workers, and fails with "Failed to
    create container on all compatible workers"; the source repository is
    untouched. *)
Theorem createContainer_exhausts_workers (config : TaskConfig)
    (compatibleWorkers : list Worker) (st : TaskStep) :
  ImageResource config = None ->
  (forall w spec, exists err, CreateContainer world w spec = Err err) ->
  (forall w bc n, VolumeManager world w = Some bc ->
                  exists v, CreateVolume bc n = Ok v) ->
  compatibleWorkers <> [] ->
  (forall w, w ∈ compatibleWorkers ->
     exists m t, inputsOnLoop (repo st) (Inputs config) w [] [] [] = Ok (m, t)) ->
  exists st',
    createContainer (S (length compatibleWorkers)) compatibleWorkers config st =
      (Err (ErrorString "Failed to create container on all compatible workers"),
       st') /\
    repo st' = repo st /\
    (createCalls st < createCalls st'
     <= createCalls st + length compatibleWorkers)%nat.
Proof.
  intros Hir Hfail Hvol Hne Hinputs.
  apply (createContainer_all_fail config Hir Hfail Hvol); [lia | exact Hne | exact Hinputs].
Qed.

(** ** More on the image resource *)

(** X14.  The image is fetched at most once per version: with the check
    session open, the newest version [versions[0]] selected and the get
    session open, a cache that is already initialized is reused without
    running a get; otherwise the get is run, and only when it succeeds is
    the cache marked initialized.  In every case the check session is
    released before [getContainerImage] returns. *)
Theorem getContainerImage_uses_cache (w : Worker)
    (imageResource : ImageResourceConfig) (version0 : Version)
    (older : list Version) (isInitialized : bool) (st : TaskStep) :
  TrackerInit world w = Ok tt ->
  Check world w (image_Source imageResource) = Ok (version0 :: older) ->
  TrackerInitWithCache world w version0 = Ok tt ->
  IsInitialized world w version0 = Ok isInitialized ->
  let opened :=
    (events st ++ [EvTrackerInit w ContainerStageCheck;
                   EvTrackerInit w ContainerStageGet])%list in
  exists st',
    events st' =
      (opened ++
       (if isInitialized then []
        else match GetRunError world w version0 with
             | None => [EvGet w version0; EvCacheInitialize w version0]
             | Some _ => [EvGet w version0]
             end) ++
       [EvResourceRelease w ContainerStageCheck])%list /\
    getContainerImage w imageResource st =
      (if isInitialized then Ok version0
       else match GetRunError world w version0 with
            | None => Ok version0
            | Some err => Err err
            end,
       st').
Proof.
  intros Hinit Hcheck Hcache Hisinit opened. unfold getContainerImage, defer.
  cbv [mbind M_bind bind mret M_ret ret emit modify lift liftError fail].
  rewrite Hinit. cbv beta iota. rewrite Hcheck. cbv beta iota.
  rewrite Hcache. cbv beta iota. rewrite Hisinit. cbv beta iota.
  unfold opened.
  destruct isInitialized; [|destruct (GetRunError world w version0) as [err|]];
    (eexists; split; [|reflexivity]); simpl; rewrite <- !app_assoc; reflexivity.
Qed.

(** ** Releasing the container *)

(** [SuccessfulStepTTL] and [FailedStepTTL]. *)
Inductive StepTTL := SuccessfulStepTTL | FailedStepTTL.

(** [Release] (lines 432-442): the TTL with which the container is
    released, [None] when there is no container and nothing is called. *)
Definition Release (st : TaskStep) : option StepTTL :=
  match container st with
  | None => None
  | Some _ =>
      if exitStatus st =? 0 then Some SuccessfulStepTTL
      else Some FailedStepTTL
  end.

Lemma releaseAll_exitStatus mounts : preserves exitStatus (releaseAll mounts).
Proof. induction mounts; simpl; frame. Qed.
#[local] Hint Resolve releaseAll_exitStatus : frame.

Lemma chooseLoop_exitStatus ws inputs chosen ms ts :
  preserves exitStatus (chooseLoop ws inputs chosen ms ts).
Proof. revert chosen ms ts. induction ws; intros; simpl; frame. Qed.
#[local] Hint Resolve chooseLoop_exitStatus : frame.

Lemma createOutputVolumes_exitStatus w outputs ms :
  preserves exitStatus (createOutputVolumes w outputs ms).
Proof. revert ms. induction outputs; intros; simpl; frame. Qed.
#[local] Hint Resolve createOutputVolumes_exitStatus : frame.

Lemma getContainerImage_exitStatus w ir :
  preserves exitStatus (getContainerImage w ir).
Proof. unfold getContainerImage. frame. Qed.
#[local] Hint Resolve getContainerImage_exitStatus : frame.

Lemma createContainer_exitStatus fuel ws config :
  preserves exitStatus (createContainer fuel ws config).
Proof.
  revert ws. induction fuel; intros; simpl; [frame|].
  unfold chooseWorkerWithMostVolumes. frame.
Qed.
#[local] Hint Resolve createContainer_exitStatus : frame.

Lemma streamInputs_exitStatus pairs : preserves exitStatus (streamInputs pairs).
Proof. induction pairs; simpl; frame. Qed.

Lemma createContainerDir_exitStatus dir :
  preserves exitStatus (createContainerDir dir).
Proof. unfold createContainerDir. frame. Qed.
#[local] Hint Resolve streamInputs_exitStatus createContainerDir_exitStatus : frame.

Lemma setupOutputs_exitStatus outputs :
  preserves exitStatus (setupOutputs outputs).
Proof. induction outputs; simpl; frame. Qed.
#[local] Hint Resolve setupOutputs_exitStatus : frame.

Lemma SetProperty_exitStatus name value :
  preserves exitStatus (SetProperty name value).
Proof. unfold SetProperty. frame. Qed.
#[local] Hint Resolve SetProperty_exitStatus : frame.

Lemma newSession_exitStatus config : preserves exitStatus (newSession config).
Proof. unfold newSession, ensureBuildDirExists. frame. Qed.

Lemma prepare_false_exitStatus config st st1 :
  prepare config st = (Ok false, st1) -> exitStatus st1 = exitStatus st.
Proof.
  unfold prepare. intros E.
  assert (Hnew : (newSession config ≫= λ _, mret false) st = (Ok false, st1) ->
                 exitStatus st1 = exitStatus st).
  { intros E'. apply bind_Ok_inv in E' as ([] & st2 & E1 & E2).
    injection E2 as <-.
    pose proof (newSession_exitStatus config st) as Hx. now rewrite E1 in Hx. }
  destruct (FindContainerForIdentifier world) as [[c|]|e]; auto.
  unfold recover in E. rewrite bind_modify in E.
  destruct (Property c taskExitStatusPropertyName) as [prop|e].
  - destruct (Sscanf_d prop) as [n|msg]; [|discriminate].
    rewrite bind_modify, bind_unfold in E.
    destruct (registerSource config _) as [[[]|e] st2]; discriminate.
  - destruct (Property c taskProcessPropertyName) as [pid|e']; [|discriminate].
    rewrite bind_emit, bind_unfold in E. unfold lift in E.
    destruct (Attach c pid) as [p|e'']; [|discriminate].
    rewrite bind_modify in E. injection E as <-. reflexivity.
Qed.

(** X15.  The TTL of a step that was interrupted: cancellation does not
    touch the step's exit status, so after an interrupted [Run] the
    container is released with the TTL that the exit status the step had
    before the run selects; a newly constructed step (exit status [0]) is
    released with [SuccessfulStepTTL].  After a process exit with status
    [E] the TTL is [SuccessfulStepTTL] exactly when [E = 0], whether or
    not storing the status succeeded. *)
Theorem Release_after_Run (config : TaskConfig) (st st1 : TaskStep) :
  FetchConfig world = Ok config ->
  prepare config (with_env (envForParams (Params config)) st) = (Ok false, st1) ->
  (Select world = Signalled ->
   exists st2,
     Run st = (Err ErrInterrupted, st2) /\
     Release st2 =
       Some (if exitStatus st =? 0 then SuccessfulStepTTL else FailedStepTTL)) /\
  (forall E, Select world = Exited E ->
     exists r st2,
       Run st = (r, st2) /\
       Release st2 =
         Some (if E =? 0 then SuccessfulStepTTL else FailedStepTTL)).
Proof.
  intros Hcfg Hprep.
  destruct (prepare_false_container _ _ _ Hprep) as [(c & Hc) _].
  pose proof (prepare_false_exitStatus _ _ _ Hprep) as Hx. simpl in Hx.
  rewrite (Run_prepared config st false st1 Hcfg Hprep).
  split.
  - intros Hsel.
    rewrite (await_Signalled config _ c Hsel) by exact Hc.
    eexists. split; [reflexivity|].
    unfold Release. simpl. rewrite Hc, Hx.
    destruct (exitStatus st =? 0); reflexivity.
  - intros E Hsel.
    rewrite (await_Exited config _ c E Hsel) by exact Hc. cbv zeta.
    destruct (SetPropertyError c _ _); eexists _, _; (split; [reflexivity|]);
      unfold Release; simpl; [rewrite Hc|]; destruct (E =? 0); reflexivity.
Qed.

(** ** More on volumes and streaming *)

Definition releaseEvent (mount : VolumeMount) : Event :=
  EvVolumeRelease (Handle (mount_Volume mount)).

Lemma releaseAll_events mounts st :
  exists st',
    releaseAll mounts st = (Ok tt, st') /\
    events st' = (events st ++ map releaseEvent mounts)%list.
Proof.
  revert st. induction mounts as [|m ms IH]; intros st; simpl.
  - exists st. split; [reflexivity|]. now rewrite app_nil_r.
  - rewrite bind_emit.
    destruct (IH (with_event (EvVolumeRelease (Handle (mount_Volume m))) st))
      as (st' & E & Hev).
    exists st'. split; [exact E|]. rewrite Hev. simpl.
    now rewrite <- app_assoc.
Qed.

(** X16.  No volume reference is kept on success: when the inputs
    resolve, the output volumes can be created, the task has no image
    resource and [CreateContainer] succeeds, [createContainer] makes
    exactly one [CreateContainer] call, on a compatible worker, returns
    the container of that call, and then releases every input and output
    volume that it mounted, in the order of the mounts. *)
Theorem createContainer_releases_mounts (config : TaskConfig)
    (compatibleWorkers : list Worker) (fuel : nat) (st : TaskStep) :
  ImageResource config = None ->
  (forall w spec, exists c, CreateContainer world w spec = Ok c) ->
  (forall w bc n, VolumeManager world w = Some bc ->
                  exists v, CreateVolume bc n = Ok v) ->
  compatibleWorkers <> [] ->
  (forall w, w ∈ compatibleWorkers ->
     exists m t, inputsOnLoop (repo st) (Inputs config) w [] [] [] = Ok (m, t)) ->
  exists c inputsToStream st' evs w spec,
    createContainer (S fuel) compatibleWorkers config st =
      (Ok (c, inputsToStream), st') /\
    w ∈ compatibleWorkers /\
    CreateContainer world w spec = Ok c /\
    inputsOnLoop (repo st) (Inputs config) w [] [] [] =
      Ok (cspec_Inputs spec, inputsToStream) /\
    events st' =
      (evs ++ [EvCreateContainer w spec]
           ++ map releaseEvent (cspec_Inputs spec)
           ++ map releaseEvent (cspec_Outputs spec))%list /\
    createCalls st' = S (createCalls st).
Proof.
  intros Hir Hcreate Hvol Hne Hinputs.
  destruct (chooseLoop_spec (Inputs config) compatibleWorkers None [] [] st Hinputs)
    as (stb & _ & [(_ & Hlt) | (pre & w & post & ms & ts & Hws & Echoose & Ew & _)]).
  { destruct compatibleWorkers as [|w ws]; [congruence|].
    specialize (Hlt w (list_elem_of_here _ _)). simpl in Hlt. lia. }
  pose proof (chooseLoop_calls compatibleWorkers (Inputs config) None [] [] st) as Hcb.
  rewrite Echoose in Hcb. simpl in Hcb.
  destruct (createOutputVolumes_Ok w (Outputs config) (Hvol w) [] stb)
    as (oms & stc & Eout).
  pose proof (createOutputVolumes_calls w (Outputs config) [] stb) as Hcc.
  rewrite Eout in Hcc. simpl in Hcc.
  simpl createContainer. unfold chooseWorkerWithMostVolumes.
  rewrite (bind_Ok _ _ _ _ _ Echoose), (bind_Ok _ _ _ _ _ Eout), Hir.
  rewrite bind_unfold. simpl. rewrite bind_emit.
  match goal with
  | |- context [CreateContainer world w ?spec] =>
      destruct (Hcreate w spec) as (c & Hc); rewrite Hc;
      set (cspec := spec) in *;
      set (std := with_event (EvCreateContainer w spec) stc)
  end.
  rewrite bind_unfold. simpl.
  destruct (releaseAll_events ms std) as (ste & Ee & Heve).
  rewrite (bind_Ok _ _ _ _ _ Ee).
  destruct (releaseAll_events oms ste) as (stf & Ef & Hevf).
  rewrite (bind_Ok _ _ _ _ _ Ef).
  exists c, ts, stf, (events stc), w, cspec.
  split; [reflexivity|].
  split; [rewrite Hws; apply elem_of_app; right; left|].
  split; [exact Hc|].
  split; [exact Ew|].
  split.
  - rewrite Hevf, Heve. unfold std. simpl. now rewrite <- !app_assoc.
  - pose proof (releaseAll_calls ms std) as H1. rewrite Ee in H1. simpl in H1.
    pose proof (releaseAll_calls oms ste) as H2. rewrite Ef in H2. simpl in H2.
    rewrite H2, H1. unfold std. rewrite createCalls_create. congruence.
Qed.

Definition streamsWithoutError (p : inputPair) : Prop :=
  StreamToError world (pair_source p) (pair_input p) = None.

Lemma streamInputs_done done rest st :
  Forall streamsWithoutError done ->
  streamInputs (done ++ rest) st =
  streamInputs rest
    (fold_left (fun s p => with_event (EvStreamTo (input_Name (pair_input p))) s)
               done st).
Proof.
  intros Hdone. revert st.
  induction Hdone as [|p done Hp _ IH]; intros st; simpl; [reflexivity|].
  rewrite bind_emit, bind_unfold. unfold liftError.
  unfold streamsWithoutError in Hp. rewrite Hp. apply IH.
Qed.

Lemma streamed_events done st :
  events (fold_left
            (fun s p => with_event (EvStreamTo (input_Name (pair_input p))) s)
            done st) =
  (events st ++ map (fun p => EvStreamTo (input_Name (pair_input p))) done)%list.
Proof.
  revert st. induction done as [|p done IH]; intros st; simpl.
  - now rewrite app_nil_r.
  - rewrite IH. simpl. now rewrite <- app_assoc.
Qed.

(** X17.  [streamInputs] streams the inputs in order and stops at the
    first one whose stream fails: the inputs before it have been
    streamed, its error is returned, and the inputs after it are not
    touched; when no stream fails, every input has been streamed. *)
Theorem streamInputs_stops_at_first_error (done : list inputPair) (st : TaskStep) :
  Forall streamsWithoutError done ->
  (exists st',
     streamInputs done st = (Ok tt, st') /\
     events st' =
       (events st ++
        map (fun p => EvStreamTo (input_Name (pair_input p))) done)%list) /\
  (forall p rest err,
     StreamToError world (pair_source p) (pair_input p) = Some err ->
     exists st',
       streamInputs (done ++ p :: rest) st = (Err err, st') /\
       events st' =
         (events st ++
          map (fun p => EvStreamTo (input_Name (pair_input p)))
              (done ++ [p]))%list).
Proof.
  intros Hdone. split.
  - pose proof (streamInputs_done done [] st Hdone) as E.
    rewrite app_nil_r in E. rewrite E. simpl.
    eexists. split; [reflexivity|]. apply streamed_events.
  - intros p rest err Hp.
    rewrite (streamInputs_done done (p :: rest) st Hdone). simpl.
    rewrite bind_emit, bind_unfold. unfold liftError. rewrite Hp.
    eexists. split; [reflexivity|]. simpl.
    rewrite streamed_events, map_app. simpl. now rewrite <- app_assoc.
Qed.

Lemma registerOutputs_no_mounts c outputs :
  VolumeMounts c = [] ->
  forall r name src,
    registerOutputs c outputs r !! name = Some src ->
    (r !! name = Some src /\
     forall output, output ∈ outputs -> output_Name output <> name)
    \/
    (exists output,
       output ∈ outputs /\ output_Name output = name /\
       src = containerSource artifactsRoot (container_Handle c) output "").
Proof.
  intros Hnil. unfold registerOutputs. rewrite Hnil. simpl.
  induction outputs as [|o outs IH]; intros r name src Hl; simpl in Hl.
  - left. split; [exact Hl|]. intros output Hin. inversion Hin.
  - apply IH in Hl as [(Hl & Hnot) | (o' & Hin & Hname & ->)].
    + destruct (decide (output_Name o = name)) as [Heq | Hne].
      * right. exists o. rewrite Heq, lookup_insert_eq in Hl.
        injection Hl as <-. split; [left|]. split; [exact Heq | reflexivity].
      * left. rewrite lookup_insert_ne in Hl by exact Hne.
        split; [exact Hl|].
        intros output Hin. apply elem_of_cons in Hin as [-> | Hin]; auto.
    + right. exists o'. split; [now right|]. split; [exact Hname | reflexivity].
Qed.

(** X18.  Outputs of a container that reports no volume mounts are
    streaming-only: after [registerSource], every declared output has a
    source that is a [containerSource] of an output of that name without
    a volume handle, and its [VolumeOn] reports no volume on any worker,
    without looking anything up. *)
Theorem registerSource_streaming_only (config : TaskConfig) (st : TaskStep)
    (c : Container) :
  container st = Some c ->
  Outputs config <> [] ->
  VolumeMounts c = [] ->
  exists st',
    registerSource config st = (Ok tt, st') /\
    forall output, output ∈ Outputs config ->
      exists src output',
        repo st' !! output_Name output = Some src /\
        output_Name output' = output_Name output /\
        src = containerSource artifactsRoot (container_Handle c) output' "" /\
        forall w, VolumeOn src w = Ok None.
Proof.
  intros Hc Hne Hnil.
  rewrite (registerSource_container config st c Hc).
  eexists. split; [reflexivity|].
  intros output Hin.
  destruct (registerOutputs_is_Some c (Outputs config) (repo st)
              (or_introl Hnil) output Hin) as (src & Hsrc).
  assert (Hlen : (length (Outputs config) =? 0)%nat = false).
  { destruct (Outputs config); [congruence | reflexivity]. }
  pose proof Hsrc as Hsrc'.
  apply (registerOutputs_no_mounts c _ Hnil) in Hsrc'
    as [(_ & Hnot) | (o' & Hin' & Hname & ->)].
  - now destruct (Hnot output Hin).
  - exists (containerSource artifactsRoot (container_Handle c) o' ""), o'.
    split; [|split; [exact Hname|split; [reflexivity|]]].
    + simpl. unfold registered. rewrite Hlen. exact Hsrc.
    + intros w. simpl. destruct (VolumeManager world w); reflexivity.
Qed.

(** X22.  Cancellation when the outputs can be registered.  When the
    step has reached the wait (the recovery probe or the new session
    ended without the process having already exited), the signal case of
    the [select] fires, and the container reports no volume mounts at all
    or a mount at the path of every declared output, [Run] closes
    [ready], calls [Stop(false)] on the container as its last call and
    returns [ErrInterrupted]; by then every declared output has a source
    in the repository (the step itself, under its own name, when no
    output is declared), the entries under other names are as before,
    and the exit status of the step is untouched. *)
Theorem Run_cancelled_registers_outputs (config : TaskConfig)
    (st st1 : TaskStep) (c : Container) :
  FetchConfig world = Ok config ->
  prepare config (with_env (envForParams (Params config)) st) = (Ok false, st1) ->
  Select world = Signalled ->
  container st1 = Some c ->
  (VolumeMounts c = [] \/
   forall output, output ∈ Outputs config ->
     exists mount, mount ∈ VolumeMounts c /\
                   MountPath mount = artifactsPath output artifactsRoot) ->
  exists st2,
    Run st = (Err ErrInterrupted, st2) /\
    (forall output, output ∈ Outputs config ->
       is_Some (repo st2 !! output_Name output)) /\
    (Outputs config = [] ->
     repo st2 !! sourceName = Some (TaskStepSource sourceName)) /\
    (forall name,
       (Outputs config = [] -> name <> sourceName) ->
       (forall output, output ∈ Outputs config -> output_Name output <> name) ->
       repo st2 !! name = repo st1 !! name) /\
    events st2 = (events st1 ++ [EvReadyClosed; EvStop false])%list /\
    container st2 = Some c /\
    exitStatus st2 = exitStatus st1.
Proof.
  intros Hcfg Hprep Hsel Hc Hmounts.
  eexists. split.
  { rewrite (Run_prepared _ _ _ _ Hcfg Hprep).
    rewrite (await_Signalled config _ c Hsel) by exact Hc.
    reflexivity. }
  simpl. rewrite <- !app_assoc. simpl.
  repeat apply conj; try reflexivity; try exact Hc.
  - intros output Hin. unfold registered.
    destruct (Outputs config) as [|o outs] eqn:Hout; [inversion Hin|].
    change (length (o :: outs) =? 0)%nat with false. cbv iota.
    now apply registerOutputs_is_Some.
  - intros Hout. unfold registered. rewrite Hout. simpl.
    apply lookup_insert_eq.
  - intros name Hself Hother. unfold registered.
    destruct (Outputs config) as [|o outs] eqn:Hout.
    + simpl. apply lookup_insert_ne. intros Heq. now apply Hself.
    + change (length (o :: outs) =? 0)%nat with false. cbv iota.
      now apply registerOutputs_other.
Qed.

End Step.

(** ** Running a completed step again *)

Section Recovery.

Context {Worker : Type} `{EqDecision Worker}.
Variable path_Join filepath_Join : string -> string -> string.
Variable sourceName : string.
Variable tags : list string.
Variable privileged : bool.
Variable artifactsRoot : string.

Abbreviation RunIn world :=
  (Run path_Join filepath_Join world sourceName tags privileged artifactsRoot).


End Recovery.

(** ** A build on a pool of numbered workers

    Worker 1 holds a volume of input [A], workers 2 and 4 hold volumes of
    every input, the other workers hold none. *)

Definition exampleJoin (a b : string) : string := a +:+ "/" +:+ b.
Definition exampleRoot : string := "/tmp/build/x".

Definition exampleContainer (mounts : list VolumeMount) : Container :=
  {| container_Handle := "task-container";
     Properties := ∅;
     VolumeMounts := mounts;
     SetPropertyError := fun _ _ => None;
     Attach := fun pid => Ok {| ID := pid |};
     container_Run := fun _ => Ok {| ID := "17" |};
     StreamInError := fun _ => None |}.

Definition exampleInput (name : string) : TaskInputConfig :=
  {| input_Name := name; input_Path := "" |}.

Definition exampleConfig (inputs : list string) (outputs : list string)
    (image : option ImageResourceConfig) : TaskConfig :=
  {| Platform := "linux"; Image := "busybox"; ImageResource := image;
     Params := [("KEY", "value")];
     config_Run := {| run_Path := "make"; run_Args := ["test"] |};
     Inputs := map exampleInput inputs;
     Outputs := map (fun name => {| output_Name := name; output_Path := "" |})
                    outputs |}.

Definition exampleRepo : gmap string ArtifactSource :=
  <["A" := ForeignSource "A"]> (<["B" := ForeignSource "B"]> ∅).

Definition exampleVolumeOn (name : string) (w : nat)
  : result error (option Volume) :=
  match w with
  | 1%nat => if String.eqb name "A" then Ok (Some {| Handle := name |})
             else Ok None
  | 2%nat | 4%nat => Ok (Some {| Handle := name |})
  | _ => Ok None
  end.

Definition exampleClient : BaggageclaimClient :=
  {| LookupVolume := fun handle => Ok (Some {| Handle := handle |});
     CreateVolume := fun _ => Ok {| Handle := "output-volume" |} |}.

Definition exampleWorld (config : TaskConfig)
    (found : result error (option Container)) (workers : list nat)
    (mountsOf : TaskContainerSpec -> list VolumeMount)
    (volumeOn : string -> nat -> result error (option Volume))
    (sel : SelectCase) : @World nat :=
  {| FetchConfig := Ok config;
     FindContainerForIdentifier := found;
     AllSatisfying := fun _ => Ok workers;
     VolumeManager := fun _ => Some exampleClient;
     CreateContainer := fun _ spec => Ok (exampleContainer (mountsOf spec));
     ForeignVolumeOn := volumeOn;
     StreamToError := fun _ _ => None;
     TrackerInit := fun _ => Ok tt;
     Check := fun _ _ => Ok [];
     TrackerInitWithCache := fun _ _ => Ok tt;
     IsInitialized := fun _ _ => Ok true;
     GetRunError := fun _ _ => None;
     CacheVolume := fun _ _ => Ok None;
     Select := sel |}.

(** The container reports every mount it was created with. *)
Definition allMounts (spec : TaskContainerSpec) : list VolumeMount :=
  (cspec_Inputs spec ++ cspec_Outputs spec)%list.

Definition exampleRun (w : @World nat) : @M nat unit :=
  Run exampleJoin exampleJoin w "task" [] false exampleRoot.

Definition examplePrepare (w : @World nat) (config : TaskConfig) : @M nat bool :=
  prepare exampleJoin exampleJoin w "task" [] false exampleRoot config.

Definition exampleStart : @TaskStep nat := newTaskStep exampleRepo.

Definition configAB : TaskConfig := exampleConfig ["A"; "B"] ["out"] None.

Definition worldAB (workers : list nat) (sel : SelectCase) : @World nat :=
  exampleWorld configAB (Ok None) workers allMounts exampleVolumeOn sel.

(** *** Worker selection *)

Lemma chooseWorkerWithMostVolumes_last_maximum_witness :
  [1; 2; 3]%nat <> [] /\
  exists pre chosenWorker post inputMounts inputsToStream st',
    [1; 2; 3]%nat = (pre ++ chosenWorker :: post)%list /\
    chooseWorkerWithMostVolumes exampleJoin (worldAB [1; 2; 3]%nat Signalled)
      exampleRoot [1; 2; 3]%nat (Inputs configAB) exampleStart =
      (Ok (Some chosenWorker, inputMounts, inputsToStream), st') /\
    inputsOnLoop exampleJoin (worldAB [1; 2; 3]%nat Signalled) exampleRoot
      (repo exampleStart) (Inputs configAB) chosenWorker [] [] [] =
      Ok (inputMounts, inputsToStream) /\
    (forall w, w ∈ [1; 2; 3]%nat ->
       (inputMountCount exampleJoin (worldAB [1; 2; 3]%nat Signalled)
          exampleRoot (repo exampleStart) (Inputs configAB) w
        <= inputMountCount exampleJoin (worldAB [1; 2; 3]%nat Signalled)
             exampleRoot (repo exampleStart) (Inputs configAB) chosenWorker)%nat) /\
    (forall w, w ∈ post ->
       (inputMountCount exampleJoin (worldAB [1; 2; 3]%nat Signalled)
          exampleRoot (repo exampleStart) (Inputs configAB) w
        < inputMountCount exampleJoin (worldAB [1; 2; 3]%nat Signalled)
            exampleRoot (repo exampleStart) (Inputs configAB) chosenWorker)%nat).
Proof.
  split; [discriminate|].
  apply (chooseWorkerWithMostVolumes_last_maximum exampleJoin
           (worldAB [1; 2; 3]%nat Signalled) exampleRoot
           [1; 2; 3]%nat (Inputs configAB) exampleStart).
  - discriminate.
  - intros w Hw.
    repeat (apply elem_of_cons in Hw as [-> | Hw];
            [eexists _, _; vm_compute; reflexivity|]).
    inversion Hw.
Defined.

(** The tie-break the specification describes: of the workers with the
    most input mounts, the first in pool order is the chosen one, so every
    worker before it has strictly fewer. *)
Definition chosenFirstAmongTies (count : nat -> nat) (ws : list nat)
    (chosen : nat) : Prop :=
  exists pre post,
    ws = (pre ++ chosen :: post)%list /\
    forall w, w ∈ pre -> (count w < count chosen)%nat.

(** C1, as stated, fails.  Workers 2 and 4 both hold volumes of both
    inputs; the step chooses 4, the later one in pool order. *)
Lemma chooseWorkerWithMostVolumes_not_stable :
  ~ (forall chosen ms ts st',
       chooseWorkerWithMostVolumes exampleJoin (worldAB [2; 4]%nat Signalled)
         exampleRoot [2; 4]%nat (Inputs configAB) exampleStart =
         (Ok (Some chosen, ms, ts), st') ->
       chosenFirstAmongTies
         (inputMountCount exampleJoin (worldAB [2; 4]%nat Signalled)
            exampleRoot (repo exampleStart) (Inputs configAB))
         [2; 4]%nat chosen).
Proof.
  intros Hstable.
  destruct (Hstable 4%nat _ _ _ ltac:(vm_compute; reflexivity))
    as (pre & post & Hws & Hlt).
  destruct pre as [|w0 pre]; [discriminate|].
  injection Hws as <- Hws.
  specialize (Hlt 2%nat (list_elem_of_here _ _)).
  vm_compute in Hlt. lia.
Qed.

(** *** Cancellation, exit and recovery *)

Definition examplePrepared (sel : SelectCase) : @TaskStep nat :=
  snd (examplePrepare (worldAB [1; 2; 3]%nat sel) configAB
         (with_env (envForParams (Params configAB)) exampleStart)).

Lemma Run_records_exit_status_witness :
  exists c st2,
    container (examplePrepared (Exited 3)) = Some c /\
    Result st2 SuccessPointer = (Some (Success (3 =? 0)), true) /\
    Result st2 ExitStatusPointer = (Some (ExitStatus 3), true) /\
    repo st2 = registered exampleJoin "task" exampleRoot configAB c
                 (repo (examplePrepared (Exited 3))) /\
    match SetPropertyError c taskExitStatusPropertyName (Sprintf_d 3) with
    | None =>
        exampleRun (worldAB [1; 2; 3]%nat (Exited 3)) exampleStart = (Ok tt, st2) /\
        container st2 =
          Some (withProperty c taskExitStatusPropertyName (Sprintf_d 3)) /\
        Property (withProperty c taskExitStatusPropertyName (Sprintf_d 3))
          taskExitStatusPropertyName = Ok (Sprintf_d 3) /\
        events st2 =
          (events (examplePrepared (Exited 3)) ++
           [EvReadyClosed;
            EvSetProperty taskExitStatusPropertyName (Sprintf_d 3);
            EvFinished 3])%list
    | Some err =>
        exampleRun (worldAB [1; 2; 3]%nat (Exited 3)) exampleStart = (Err err, st2)
    end.
Proof.
  apply (Run_records_exit_status exampleJoin exampleJoin
           (worldAB [1; 2; 3]%nat (Exited 3)) "task" [] false exampleRoot
           configAB exampleStart (examplePrepared (Exited 3)) 3).
  - reflexivity.
  - vm_compute. reflexivity.
  - reflexivity.
Defined.




(** *** Outputs *)

(** The container reports the input mounts only. *)
Definition worldInputMounts : @World nat :=
  exampleWorld configAB (Ok None) [1; 2; 3]%nat cspec_Inputs exampleVolumeOn
    (Exited 0).

(** C5 fails on the code, by the defect that C7 shows.  The container
    reports volume mounts, none of them at the path of output [out]; the
    signal arrives while the step waits for the process.  [Run] calls
    [Stop(false)] last and returns [ErrInterrupted], yet no source is
    registered for [out]. *)
Lemma Run_cancelled_output_not_registered :
  let world :=
    exampleWorld configAB (Ok None) [1; 2; 3]%nat cspec_Inputs exampleVolumeOn
      Signalled in
  fst (exampleRun world exampleStart) = Err ErrInterrupted /\
  (VolumeMounts <$> container (snd (exampleRun world exampleStart))) =
    Some [ {| mount_Volume := {| Handle := "A" |}; MountPath := "/tmp/build/x/A" |};
           {| mount_Volume := {| Handle := "B" |}; MountPath := "/tmp/build/x/B" |} ] /\
  last (events (snd (exampleRun world exampleStart))) = Some (EvStop false) /\
  map output_Name (Outputs configAB) = ["out"] /\
  repo (snd (exampleRun world exampleStart)) !! "out" = None.
Proof. vm_compute. repeat split. Qed.

(** C7 fails on the code.  The container reports volume mounts, none of
    them at the path of output [out]; the process exits with status 0 and
    [Run] returns success, yet no source is registered for [out]. *)
Lemma Run_unmatched_output_not_registered :
  fst (exampleRun worldInputMounts exampleStart) = Ok tt /\
  (VolumeMounts <$> container (snd (exampleRun worldInputMounts exampleStart))) =
    Some [ {| mount_Volume := {| Handle := "A" |}; MountPath := "/tmp/build/x/A" |};
           {| mount_Volume := {| Handle := "B" |}; MountPath := "/tmp/build/x/B" |} ] /\
  repo (snd (exampleRun worldInputMounts exampleStart)) !! "out" = None.
Proof. vm_compute. repeat split. Qed.

Lemma TaskStep_source_has_no_volume_witness :
  exists st' src,
    registerSource exampleJoin "task" exampleRoot
      (exampleConfig ["A"] [] None) exampleStart = (Ok tt, st') /\
    repo st' !! "task" = Some src /\
    (forall w, VolumeOn (worldAB [1; 2; 3]%nat Signalled) src w = Ok None) /\
    (forall w input,
       input_Name input = "task" ->
       inputsOnLoop exampleJoin (worldAB [1; 2; 3]%nat Signalled) exampleRoot
         (repo st') [input] w [] [] [] =
       Ok ([], [{| pair_input := input; pair_source := src |}])).
Proof.
  apply (TaskStep_source_has_no_volume exampleJoin exampleJoin
           (worldAB [1; 2; 3]%nat Signalled) "task" exampleRoot
           (exampleConfig ["A"] [] None) exampleStart).
  reflexivity.
Defined.

(** *** Missing inputs *)

Definition configAC : TaskConfig := exampleConfig ["A"; "C"] ["out"] None.

Definition worldAC (volumeOn : string -> nat -> result error (option Volume))
  : @World nat :=
  exampleWorld configAC (Ok None) [1; 2; 3]%nat allMounts volumeOn (Exited 0).

Lemma Run_missing_inputs_witness :
  missingNames exampleStart.(repo) (Inputs configAC) = ["C"] /\
  exists st',
    exampleRun (worldAC exampleVolumeOn) exampleStart =
      (Err (MissingInputsError (missingNames (repo exampleStart) (Inputs configAC))),
       st')
    /\ events st' = (events exampleStart ++ [EvInitializing])%list
    /\ repo st' = repo exampleStart.
Proof.
  split; [vm_compute; reflexivity|].
  apply (Run_missing_inputs exampleJoin exampleJoin (worldAC exampleVolumeOn)
           "task" [] false exampleRoot configAC exampleStart 1%nat [2; 3]%nat).
  - reflexivity.
  - discriminate.
  - reflexivity.
  - intros input src Hin Hsrc.
    apply elem_of_cons in Hin as [-> | Hin].
    + vm_compute in Hsrc. injection Hsrc as <-. eexists. reflexivity.
    + apply elem_of_cons in Hin as [-> | Hin]; [|inversion Hin].
      vm_compute in Hsrc. discriminate.
  - vm_compute. discriminate.
Defined.

(** C8, as stated, fails.  Input [C] has no source, but the volume lookup
    for the registered input [A] fails first, and [Run] returns that error
    instead of the missing-inputs error. *)
Lemma Run_missing_inputs_lookup_error_first :
  ~ (missingNames (repo exampleStart) (Inputs configAC) <> [] ->
     exists st',
       exampleRun
         (worldAC (fun _ _ => Err (ErrorString "volume lookup failed")))
         exampleStart =
       (Err (MissingInputsError
               (missingNames (repo exampleStart) (Inputs configAC))), st')).
Proof.
  intros Hclaim. destruct Hclaim as (st' & Hrun).
  - vm_compute. discriminate.
  - apply (f_equal fst) in Hrun. vm_compute in Hrun. discriminate.
Qed.

(** *** The image resource *)

Definition exampleImage : ImageResourceConfig :=
  {| image_Type := "docker-image"; image_Source := {["repository" := "busybox"]} |}.

Definition configImage : TaskConfig :=
  exampleConfig ["A"; "B"] ["out"] (Some exampleImage).

Definition worldImage : @World nat :=
  exampleWorld configImage (Ok None) [1; 2; 3]%nat allMounts exampleVolumeOn
    (Exited 0).

Lemma Run_image_unavailable_witness :
  (forall w, Check worldImage w (image_Source exampleImage) = Ok []) /\
  (exists st', exampleRun worldImage exampleStart = (Err ErrImageUnavailable, st')) /\
  (exists e st',
     exampleRun worldImage exampleStart = (Err e, st') /\
     createCalls st' = createCalls exampleStart).
Proof.
  destruct (Run_image_unavailable exampleJoin exampleJoin worldImage "task" []
              false exampleRoot configImage exampleImage)
    as (_ & Hnone & Hunavailable).
  - reflexivity.
  - reflexivity.
  - reflexivity.
  - discriminate.
  - split; [reflexivity|]. split.
    + apply (Hunavailable exampleStart [1; 2; 3]%nat).
      * reflexivity.
      * discriminate.
      * intros w Hw.
        repeat (apply elem_of_cons in Hw as [-> | Hw];
                [eexists _, _; vm_compute; reflexivity|]).
        inversion Hw.
      * intros w bc n [= <-]. eexists. reflexivity.
      * reflexivity.
    + apply Hnone.
Defined.

(** *** More runs on the example pool *)

(** A world like [exampleWorld] in which creation, streaming and the
    image check can be changed. *)
Definition exampleWorldWith (config : TaskConfig)
    (found : result error (option Container)) (workers : list nat)
    (create : nat -> TaskContainerSpec -> result error Container)
    (streamTo : ArtifactSource -> TaskInputConfig -> option error)
    (versions : list Version) (initialized : bool) (getError : option error)
    (sel : SelectCase) : @World nat :=
  {| FetchConfig := Ok config;
     FindContainerForIdentifier := found;
     AllSatisfying := fun _ => Ok workers;
     VolumeManager := fun _ => Some exampleClient;
     CreateContainer := create;
     ForeignVolumeOn := exampleVolumeOn;
     StreamToError := streamTo;
     TrackerInit := fun _ => Ok tt;
     Check := fun _ _ => Ok versions;
     TrackerInitWithCache := fun _ _ => Ok tt;
     IsInitialized := fun _ _ => Ok initialized;
     GetRunError := fun _ _ => getError;
     CacheVolume := fun _ _ => Ok None;
     Select := sel |}.

Definition exampleMountA : VolumeMount :=
  {| mount_Volume := {| Handle := "A" |}; MountPath := "/tmp/build/x/A" |}.

Definition examplePairB : inputPair :=
  {| pair_input := exampleInput "B"; pair_source := ForeignSource "B" |}.

Lemma inputsOn_partitions_inputs_witness :
  inputsOnLoop exampleJoin (worldAB [1; 2; 3]%nat Signalled) exampleRoot
    exampleRepo (Inputs configAB) 1%nat [] [] [] =
    Ok ([exampleMountA], [examplePairB]) /\
  map pair_input [examplePairB] =
    List.filter
      (fun input =>
         negb (hasVolumeOn (worldAB [1; 2; 3]%nat Signalled) exampleRepo 1%nat input))
      (Inputs configAB) /\
  (length [exampleMountA] + length [examplePairB] = length (Inputs configAB))%nat.
Proof.
  assert (H : inputsOnLoop exampleJoin (worldAB [1; 2; 3]%nat Signalled)
                exampleRoot exampleRepo (Inputs configAB) 1%nat [] [] [] =
              Ok ([exampleMountA], [examplePairB]))
    by (vm_compute; reflexivity).
  split; [exact H|].
  destruct (inputsOn_partitions_inputs exampleJoin
              (worldAB [1; 2; 3]%nat Signalled) exampleRoot exampleRepo
              (Inputs configAB) 1%nat [exampleMountA] [examplePairB] H)
    as (_ & _ & Hpairs & _ & Hlen).
  split; [exact Hpairs | exact Hlen].
Defined.

(** A step whose container reports no volume mounts. *)
Definition exampleCreated : @TaskStep nat :=
  with_container (Some (exampleContainer [])) exampleStart.

Definition exampleRegistered : @TaskStep nat :=
  snd (registerSource exampleJoin "task" exampleRoot configAB exampleCreated).

Lemma registerSource_registers_outputs_witness :
  exists st',
    registerSource exampleJoin "task" exampleRoot configAB exampleCreated
      = (Ok tt, st') /\
    forall output, output ∈ Outputs configAB ->
      is_Some (repo st' !! output_Name output).
Proof.
  apply (registerSource_registers_outputs exampleJoin "task" exampleRoot
           configAB exampleCreated (exampleContainer [])).
  - reflexivity.
  - discriminate.
  - left. reflexivity.
Defined.

Lemma registerSource_keeps_other_sources_witness :
  repo exampleRegistered !! "A" = repo exampleCreated !! "A" /\
  container exampleRegistered = container exampleCreated /\
  events exampleRegistered = events exampleCreated /\
  exitStatus exampleRegistered = exitStatus exampleCreated.
Proof.
  apply (registerSource_keeps_other_sources exampleJoin "task" exampleRoot
           configAB exampleCreated exampleRegistered "A").
  - vm_compute. reflexivity.
  - discriminate.
  - intros output Hin.
    apply elem_of_cons in Hin as [-> | Hin]; [discriminate | inversion Hin].
Defined.

Lemma registerSource_again_witness :
  registerSource exampleJoin "task" exampleRoot configAB exampleRegistered
    = (Ok tt, exampleRegistered).
Proof.
  apply (registerSource_again exampleJoin "task" exampleRoot configAB
           exampleCreated exampleRegistered).
  vm_compute. reflexivity.
Defined.

Lemma registerSource_streaming_only_witness :
  exists st',
    registerSource exampleJoin "task" exampleRoot configAB exampleCreated
      = (Ok tt, st') /\
    forall output, output ∈ Outputs configAB ->
      exists src output',
        repo st' !! output_Name output = Some src /\
        output_Name output' = output_Name output /\
        src = containerSource exampleRoot
                (container_Handle (exampleContainer [])) output' "" /\
        forall w, VolumeOn (worldAB [1; 2; 3]%nat Signalled) src w = Ok None.
Proof.
  apply (registerSource_streaming_only exampleJoin
           (worldAB [1; 2; 3]%nat Signalled) "task" exampleRoot configAB
           exampleCreated (exampleContainer [])).
  - reflexivity.
  - discriminate.
  - reflexivity.
Defined.

(** The container of a step whose process, with id 17, is still running,
    and a container with an exit status that is no number. *)
Definition exampleRunning : Container :=
  withProperty (exampleContainer []) taskProcessPropertyName "17".

Definition exampleGarbled : Container :=
  withProperty exampleRunning taskExitStatusPropertyName "abc".

Definition worldFound (c : Container) (sel : SelectCase) : @World nat :=
  exampleWorld configAB (Ok (Some c)) [1; 2; 3]%nat allMounts exampleVolumeOn sel.

Lemma Run_reattaches_witness :
  exists st',
    exampleRun (worldFound exampleRunning (Exited 0)) exampleStart = (Ok tt, st') /\
    events st' =
      [EvAttach "17"; EvReadyClosed;
       EvSetProperty taskExitStatusPropertyName (Sprintf_d 0);
       EvFinished 0].
Proof.
  destruct (Run_reattaches exampleJoin exampleJoin
              (worldFound exampleRunning (Exited 0)) "task" [] false exampleRoot
              configAB exampleRunning "17" {| ID := "17" |} exampleStart 0)
    as (st' & Hrun & Hev & _);
    try reflexivity.
  exists st'. split; [exact Hrun | exact Hev].
Defined.

Lemma Run_rogue_container_witness :
  exists err st',
    exampleRun (worldFound (exampleContainer []) (Exited 0)) exampleStart
      = (Err err, st') /\
    events st' = events exampleStart /\
    repo st' = repo exampleStart /\
    process st' = process exampleStart /\
    exitStatus st' = exitStatus exampleStart.
Proof.
  apply (Run_rogue_container exampleJoin exampleJoin
           (worldFound (exampleContainer []) (Exited 0)) "task" [] false
           exampleRoot configAB (exampleContainer []) exampleStart);
    reflexivity.
Defined.

Lemma Run_unreadable_exit_status_witness :
  exists st',
    exampleRun (worldFound exampleGarbled (Exited 0)) exampleStart
      = (Err (ErrorString "expected integer"), st') /\
    events st' = events exampleStart /\
    repo st' = repo exampleStart /\
    exitStatus st' = exitStatus exampleStart.
Proof.
  apply (Run_unreadable_exit_status exampleJoin exampleJoin
           (worldFound exampleGarbled (Exited 0)) "task" [] false exampleRoot
           configAB exampleGarbled "abc" "expected integer" exampleStart);
    reflexivity.
Defined.

Definition exampleWaitError : error := ErrorString "container died".

Lemma Run_wait_error_witness :
  exists st',
    exampleRun (worldAB [1; 2; 3]%nat (WaitFailed exampleWaitError)) exampleStart
      = (Err exampleWaitError, st') /\
    events st' =
      (events (examplePrepared (WaitFailed exampleWaitError))
       ++ [EvReadyClosed])%list /\
    repo st' = repo (examplePrepared (WaitFailed exampleWaitError)) /\
    container st' = container (examplePrepared (WaitFailed exampleWaitError)) /\
    exitStatus st' = exitStatus (examplePrepared (WaitFailed exampleWaitError)).
Proof.
  apply (Run_wait_error exampleJoin exampleJoin
           (worldAB [1; 2; 3]%nat (WaitFailed exampleWaitError)) "task" []
           false exampleRoot configAB exampleStart
           (examplePrepared (WaitFailed exampleWaitError)) exampleWaitError).
  - reflexivity.
  - vm_compute. reflexivity.
  - reflexivity.
Defined.

Definition exampleSession : @TaskStep nat :=
  snd (newSession exampleJoin exampleJoin (worldAB [1; 2; 3]%nat (Exited 0))
         "task" [] false exampleRoot configAB
         (with_env (envForParams (Params configAB)) exampleStart)).

Lemma Run_stores_process_id_before_ready_witness :
  exampleRun (worldAB [1; 2; 3]%nat (Exited 0)) exampleStart =
  await exampleJoin (worldAB [1; 2; 3]%nat (Exited 0)) "task" exampleRoot
    configAB (with_event EvReadyClosed exampleSession).
Proof.
  pose proof (Run_stores_process_id_before_ready exampleJoin exampleJoin
                (worldAB [1; 2; 3]%nat (Exited 0)) "task" [] false exampleRoot
                configAB exampleStart eq_refl) as H.
  assert (Hnew : newSession exampleJoin exampleJoin
                   (worldAB [1; 2; 3]%nat (Exited 0)) "task" [] false
                   exampleRoot configAB
                   (with_env (envForParams (Params configAB)) exampleStart)
                 = (Ok tt, exampleSession))
    by (vm_compute; reflexivity).
  rewrite Hnew in H. apply H. discriminate.
Defined.

Lemma Release_after_Run_witness :
  exists st2,
    exampleRun (worldAB [1; 2; 3]%nat Signalled) exampleStart
      = (Err ErrInterrupted, st2) /\
    Release st2 = Some SuccessfulStepTTL.
Proof.
  destruct (Release_after_Run exampleJoin exampleJoin
              (worldAB [1; 2; 3]%nat Signalled) "task" [] false exampleRoot
              configAB exampleStart (examplePrepared Signalled))
    as (Hcancel & _).
  - reflexivity.
  - vm_compute. reflexivity.
  - apply Hcancel. reflexivity.
Defined.

(** *** Creation on the example pool *)

Definition worldNoCreation : @World nat :=
  exampleWorldWith configAB (Ok None) [1; 2; 3]%nat
    (fun _ _ => Err (ErrorString "garden unreachable"))
    (fun _ _ => None) [] true None (Exited 0).

Lemma exampleInputsResolve (w : @World nat) (workers : list nat) :
  ForeignVolumeOn w = exampleVolumeOn ->
  forall x, x ∈ workers ->
    exists m t,
      inputsOnLoop exampleJoin w exampleRoot (repo exampleStart)
        (Inputs configAB) x [] [] [] = Ok (m, t).
Proof.
  intros Hvol x _. simpl. unfold VolumeOn. rewrite Hvol.
  change (repo exampleStart) with exampleRepo.
  assert (HA : exampleRepo !! "A" = Some (ForeignSource "A")) by reflexivity.
  assert (HB : exampleRepo !! "B" = Some (ForeignSource "B")) by reflexivity.
  rewrite HA.
  destruct (exampleVolumeOn "A" x) as [[v|]|e] eqn:EA;
    [| |destruct x as [|[|[|[|[|x]]]]]; discriminate];
    rewrite HB;
    (destruct (exampleVolumeOn "B" x) as [[v'|]|e] eqn:EB;
     [| |destruct x as [|[|[|[|[|x]]]]]; discriminate]);
    eexists _, _; reflexivity.
Qed.

Lemma createContainer_exhausts_workers_witness :
  exists st',
    createContainer exampleJoin exampleJoin worldNoCreation "task" [] false
      exampleRoot (S (length [1; 2; 3]%nat)) [1; 2; 3]%nat configAB exampleStart =
      (Err (ErrorString "Failed to create container on all compatible workers"),
       st') /\
    repo st' = repo exampleStart /\
    (createCalls exampleStart < createCalls st'
     <= createCalls exampleStart + length [1; 2; 3]%nat)%nat.
Proof.
  apply (createContainer_exhausts_workers exampleJoin exampleJoin
           worldNoCreation "task" [] false exampleRoot configAB
           [1; 2; 3]%nat exampleStart).
  - reflexivity.
  - intros w spec. eexists. reflexivity.
  - intros w bc n [= <-]. eexists. reflexivity.
  - discriminate.
  - now apply exampleInputsResolve.
Defined.

Lemma createContainer_releases_mounts_witness :
  exists c inputsToStream st' evs w spec,
    createContainer exampleJoin exampleJoin (worldAB [1; 2; 3]%nat (Exited 0))
      "task" [] false exampleRoot 4 [1; 2; 3]%nat configAB exampleStart =
      (Ok (c, inputsToStream), st') /\
    w ∈ [1; 2; 3]%nat /\
    CreateContainer (worldAB [1; 2; 3]%nat (Exited 0)) w spec = Ok c /\
    inputsOnLoop exampleJoin (worldAB [1; 2; 3]%nat (Exited 0)) exampleRoot
      (repo exampleStart) (Inputs configAB) w [] [] [] =
      Ok (cspec_Inputs spec, inputsToStream) /\
    events st' =
      (evs ++ [EvCreateContainer w spec]
           ++ map releaseEvent (cspec_Inputs spec)
           ++ map releaseEvent (cspec_Outputs spec))%list /\
    createCalls st' = S (createCalls exampleStart).
Proof.
  apply (createContainer_releases_mounts exampleJoin exampleJoin
           (worldAB [1; 2; 3]%nat (Exited 0)) "task" [] false exampleRoot
           configAB [1; 2; 3]%nat 3 exampleStart).
  - reflexivity.
  - intros w spec. eexists. reflexivity.
  - intros w bc n [= <-]. eexists. reflexivity.
  - discriminate.
  - now apply exampleInputsResolve.
Defined.

Definition exampleStreamError : error := ErrorString "stream interrupted".

Definition worldBrokenStream : @World nat :=
  exampleWorldWith configAB (Ok None) [1; 2; 3]%nat
    (fun _ spec => Ok (exampleContainer (allMounts spec)))
    (fun src _ => match src with
                  | ForeignSource "B" => Some exampleStreamError
                  | _ => None
                  end)
    [] true None (Exited 0).

Definition examplePairA : inputPair :=
  {| pair_input := exampleInput "A"; pair_source := ForeignSource "A" |}.

Definition examplePairC : inputPair :=
  {| pair_input := exampleInput "C"; pair_source := ForeignSource "C" |}.

Lemma streamInputs_stops_at_first_error_witness :
  Forall (streamsWithoutError worldBrokenStream) [examplePairA] /\
  exists st',
    streamInputs worldBrokenStream [examplePairA; examplePairB; examplePairC]
      exampleStart = (Err exampleStreamError, st') /\
    events st' = [EvStreamTo "A"; EvStreamTo "B"].
Proof.
  assert (Hdone : Forall (streamsWithoutError worldBrokenStream) [examplePairA]).
  { repeat constructor. }
  split; [exact Hdone|].
  destruct (streamInputs_stops_at_first_error worldBrokenStream [examplePairA]
              exampleStart Hdone)
    as (_ & Hfail).
  destruct (Hfail examplePairB [examplePairC] exampleStreamError eq_refl)
    as (st' & Hrun & Hev).
  exists st'. split; [exact Hrun | exact Hev].
Defined.

Definition exampleVersion (ref : string) : Version := {["ref" := ref]}.

Definition worldImageVersions (initialized : bool) (getError : option error)
  : @World nat :=
  exampleWorldWith configImage (Ok None) [1; 2; 3]%nat
    (fun _ spec => Ok (exampleContainer (allMounts spec)))
    (fun _ _ => None)
    [exampleVersion "new"; exampleVersion "old"] initialized getError (Exited 0).

Lemma getContainerImage_uses_cache_witness :
  exists st',
    events st' =
      [EvTrackerInit 2%nat ContainerStageCheck;
       EvTrackerInit 2%nat ContainerStageGet;
       EvGet 2%nat (exampleVersion "new");
       EvCacheInitialize 2%nat (exampleVersion "new");
       EvResourceRelease 2%nat ContainerStageCheck] /\
    getContainerImage (worldImageVersions false None) 2%nat exampleImage
      exampleStart = (Ok (exampleVersion "new"), st').
Proof.
  apply (getContainerImage_uses_cache (worldImageVersions false None) 2%nat
           exampleImage (exampleVersion "new") [exampleVersion "old"] false
           exampleStart);
    reflexivity.
Defined.

(** The container that the example pool creates for the step. *)
Definition exampleCreatedContainer : Container :=
  default (exampleContainer []) (container (examplePrepared Signalled)).

Lemma Run_cancelled_registers_outputs_witness :
  exists st2,
    exampleRun (worldAB [1; 2; 3]%nat Signalled) exampleStart
      = (Err ErrInterrupted, st2) /\
    (forall output, output ∈ Outputs configAB ->
       is_Some (repo st2 !! output_Name output)) /\
    repo st2 !! "A" = repo (examplePrepared Signalled) !! "A" /\
    events st2 = (events (examplePrepared Signalled)
                  ++ [EvReadyClosed; EvStop false])%list /\
    exitStatus st2 = exitStatus (examplePrepared Signalled).
Proof.
  destruct (Run_cancelled_registers_outputs exampleJoin exampleJoin
              (worldAB [1; 2; 3]%nat Signalled) "task" [] false exampleRoot
              configAB exampleStart (examplePrepared Signalled)
              exampleCreatedContainer)
    as (st2 & Hrun & Hout & _ & Hother & Hev & _ & Hexit).
  - reflexivity.
  - vm_compute. reflexivity.
  - reflexivity.
  - vm_compute. reflexivity.
  - right. intros output Hin.
    apply elem_of_cons in Hin as [-> | Hin]; [|inversion Hin].
    exists {| mount_Volume := {| Handle := "output-volume" |};
              MountPath := "/tmp/build/x/out/" |}.
    split; [|vm_compute; reflexivity].
    vm_compute. do 2 apply list_elem_of_further. apply list_elem_of_here.
  - exists st2. repeat apply conj; try assumption.
    apply Hother.
    + discriminate.
    + intros output Hin.
      apply elem_of_cons in Hin as [-> | Hin]; [discriminate | inversion Hin].
Defined.

End exec.
